(** * Transform kernels and the hex codec of the image-to-witness converters

    A shallow embedding of the numeric kernels and of the [compress] packing
    routine of the two converter families ([veritas/benchmark] and
    [vimz/image_converter]), with the properties their specification states.

    Conventions of the embedding:
    - Python integers are [Z] (or [N] where the code only ever holds
      non-negative values); [//] is [Z.div] (both floor) and [int(p / q)] on
      non-negative integers is [Z.quot].
    - A numpy array is a list of rows; an access that raises [IndexError]
      in Python is [None] here, and negative indices wrap as Python does.
    - Binary64 floats are [spec_float] values computed with the Standard
      Library's IEEE-754 operations ([SFmul], [SFadd], ... at precision 53
      and maximal exponent 1024). *)

From Stdlib Require Import ZArith NArith List Lia Ascii String HexString.
From Stdlib Require Import Floats.SpecFloat Floats.FloatOps.
From stdpp Require Import base tactics option list list_numbers strings.

#[local] Open Scope Z_scope.

(** ** Python helpers *)

Module Py.

(** [range(a, b)]: empty when [b <= a]. *)
Definition range (a b : Z) : list Z := seqZ a (b - a).

(** [l[i]] with Python's negative indices; [None] stands for [IndexError]. *)
Definition index {A} (l : list A) (i : Z) : option A :=
  let n := Z.of_nat (length l) in
  if (0 <=? i) && (i <? n) then l !! Z.to_nat i
  else if (- n <=? i) && (i <? 0) then l !! Z.to_nat (n + i)
  else None.

(** [l[i] = v], same index rule. *)
Definition store {A} (l : list A) (i : Z) (v : A) : option (list A) :=
  let n := Z.of_nat (length l) in
  if (0 <=? i) && (i <? n) then Some (<[Z.to_nat i := v]> l)
  else if (- n <=? i) && (i <? 0) then Some (<[Z.to_nat (n + i) := v]> l)
  else None.

(** The position an index [k] designates on an axis of extent [n]. *)
Definition wrap (n k : Z) : Z := if k <? 0 then n + k else k.

(** [m[i][j]] on a list of rows. *)
Definition index2 {A} (m : list (list A)) (i j : Z) : option A :=
  row ← index m i; index row j.

(** [m[i][j] = v] on a list of rows. *)
Definition store2 {A} (m : list (list A)) (i j : Z) (v : A)
  : option (list (list A)) :=
  row ← index m i; row' ← store row j v; store m i row'.

(** [round(p / q)] for integers [p] and [q > 0]: the nearest integer, a tie
    going to the even neighbour.  The float quotient [p / q] is the correctly
    rounded value of the exact one, and for the magnitudes of this program
    (below [2^53], [q] below [2^26]) both round to the same integer. *)
Definition round_div (p q : Z) : Z :=
  let f := p / q in
  let r := p mod q in
  if 2 * r <? q then f
  else if q <? 2 * r then f + 1
  else if Z.even f then f else f + 1.

(** [max(0, min(255, v))]. *)
Definition clamp255 (v : Z) : Z := Z.max 0 (Z.min 255 v).

(** A left fold whose body can fail: the loops of the kernels. *)
Definition for_each {A S} (body : S -> A -> option S) (l : list A) (s : S)
  : option S :=
  fold_left (fun acc x => s' ← acc; body s' x) l (Some s).

End Py.

(** A pixel buffer of height [h] and width [w]: [h] rows of [w] cells. *)
Definition has_shape {A} (m : list (list A)) (h w : nat) : Prop :=
  length m = h /\ Forall (fun row => length row = w) m.

(** [m[r][c]] for an access inside the buffer. *)
Definition cell (m : list (list Z)) (r c : nat) : Z := (m !!! r) !!! c.

(** [m[r][c] = v] for a store inside the buffer. *)
Definition set_cell (m : list (list Z)) (r c : nat) (v : Z) : list (list Z) :=
  <[r := <[c := v]> (m !!! r)]> m.

(** Every stored value is an unsigned 8-bit integer. *)
Definition is_u8 (v : Z) : Prop := 0 <= v <= 255.
Definition all_u8 (m : list (list Z)) : Prop := Forall (Forall is_u8) m.

(** ** The hex codec ([compress], identical in every vimz converter) *)

Module HexCodec.

(** A cell of [image_array.tolist()]: a scalar (grayscale image) or the
    channel triple of an RGB image. *)
Inductive pixel : Type :=
| Scalar (v : N)
| Rgb (c0 c1 c2 : N).

(** [s[2:]] *)
Definition drop2 (s : string) : string :=
  match s with
  | String _ (String _ rest) => rest
  | _ => EmptyString
  end.

(** [hex(n)[2:]] for a non-negative [n]. *)
Definition hex_digits (n : N) : string := drop2 (HexString.of_N n).

Fixpoint zeros (k : nat) : string :=
  match k with
  | O => EmptyString
  | S k' => String "0" (zeros k')
  end.

(** [s.zfill(w)] for a string without sign. *)
Definition zfill (w : nat) (s : string) : string :=
  zeros (w - String.length s) +:+ s.

(** The body of the inner loop before the [j % 10] test: the pixel's digits
    are put in front of the accumulator. *)
Definition add_pixel (px : pixel) (hexValue : string) : string :=
  match px with
  | Scalar v => zfill 6 (hex_digits v) +:+ hexValue
  | Rgb c0 c1 c2 =>
      fold_left (fun h c => zfill 2 (hex_digits c) +:+ h) [c0; c1; c2] hexValue
  end.

(** State of the inner loop: the index [j], the accumulator and the row of
    words emitted so far. *)
Record loop_state : Type := LoopState {
  ls_j : nat;
  ls_hex : string;
  ls_row : list string
}.

Definition compress_step (st : loop_state) (px : pixel) : loop_state :=
  let hexValue := add_pixel px (ls_hex st) in
  if (ls_j st mod 10 =? 9)%nat
  then LoopState (S (ls_j st)) EmptyString (ls_row st ++ ["0x" +:+ hexValue])
  else LoopState (S (ls_j st)) hexValue (ls_row st).

Definition compress_row (row : list pixel) : list string :=
  ls_row (fold_left compress_step row (LoopState 0 EmptyString [])).

Definition compress (image : list (list pixel)) : list (list string) :=
  map compress_row image.

(** The digits one pixel contributes. *)
Definition pixel_digits (px : pixel) : string := add_pixel px EmptyString.

(** The digits of a group: the last pixel's digits come first. *)
Fixpoint group_digits (g : list pixel) : string :=
  match g with
  | [] => EmptyString
  | px :: g' => group_digits g' +:+ pixel_digits px
  end.

(** Modelled from the spec: the channel depth of a pixel buffer
    ([channel_depth] is 1 or 3, section 3), which the conceptual decoder
    needs to know; the repository contains no decoder. *)
Inductive depth : Type := Depth1 | Depth3.

(** Modelled from the spec: the conceptual decoder cuts the digits of a word
    into the six-digit fields of its pixels (section 4.8: six digits per
    scalar pixel, three two-digit segments per RGB pixel). *)
Fixpoint chunks6 (s : string) : list string :=
  match s with
  | String a (String b (String c (String d (String e (String f rest))))) =>
      String a (String b (String c (String d (String e (String f EmptyString)))))
      :: chunks6 rest
  | _ => []
  end.

(** Modelled from the spec: the conceptual decoder reads one field back, a
    scalar as one 24-bit value, an RGB pixel as three 8-bit segments with
    channel 2 first. *)
Definition decode_pixel (d : depth) (chunk : string) : pixel :=
  match d with
  | Depth1 => Scalar (HexString.Raw.to_N chunk 0%N)
  | Depth3 =>
      match chunk with
      | String a (String b (String c (String d' (String e (String f _))))) =>
          Rgb (HexString.Raw.to_N (String e (String f EmptyString)) 0%N)
              (HexString.Raw.to_N (String c (String d' EmptyString)) 0%N)
              (HexString.Raw.to_N (String a (String b EmptyString)) 0%N)
      | _ => Rgb 0 0 0
      end
  end.

(** Modelled from the spec: the conceptual decoder of one word, the inverse
    of [compress] on a group: the fields are read back in the order in which
    [compress] stored them, the last field being the first pixel. *)
Definition unpack_word (d : depth) (w : string) : list pixel :=
  rev (map (decode_pixel d) (chunks6 (drop2 w))).

(** Modelled from the spec: the conceptual decoder of a row of words. *)
Definition unpack_row (d : depth) (ws : list string) : list pixel :=
  concat (map (unpack_word d) ws).

(** Every channel of the pixel is an unsigned 8-bit value. *)
Definition pixel_u8 (px : pixel) : Prop :=
  match px with
  | Scalar v => (v < 256)%N
  | Rgb c0 c1 c2 => (c0 < 256)%N /\ (c1 < 256)%N /\ (c2 < 256)%N
  end.

(** The layout section 4.8 describes in words: the first pixel of the group
    in the most significant digits, the last one in the least significant. *)
Definition digits_first_pixel_leading (g : list pixel) : string :=
  fold_right (fun px acc => pixel_digits px +:+ acc) EmptyString g.

(** Ten grayscale pixels with the values 1 to 10, and twelve with 1 to 12. *)
Definition ten_gray : list pixel := map Scalar [1; 2; 3; 4; 5; 6; 7; 8; 9; 10]%N.
Definition twelve_gray : list pixel := ten_gray ++ map Scalar [11; 12]%N.

(** A pixel of a buffer of the given depth whose digits fit their field. *)
Definition fits (d : depth) (px : pixel) : Prop :=
  match d, px with
  | Depth1, Scalar v => (v < 2 ^ 24)%N
  | Depth3, Rgb c0 c1 c2 => (c0 < 256)%N /\ (c1 < 256)%N /\ (c2 < 256)%N
  | _, _ => False
  end.

End HexCodec.

(** ** Crop, hex-codec family ([vimz/image_converter/crop/crop.py]) *)

Module VimzCrop.

Inductive resolution : Type := SD | HD | FHD | UHD4K.

(** The [sizes] table: [(width, height)]. *)
Definition sizes (r : resolution) : Z * Z :=
  match r with
  | SD => (640, 480)
  | HD => (1280, 720)
  | FHD => (1920, 1080)
  | UHD4K => (3840, 2160)
  end.

Record args : Type := Args {
  arg_resolution : resolution;
  crop_x : Z;
  crop_y : Z
}.

Record envelope : Type := Envelope {
  original : list (list string);
  info : Z
}.

(** [image_np.shape[:2]] *)
Definition shape2 {A} (image : list (list A)) : Z * Z :=
  (Z.of_nat (length image), Z.of_nat (length (image !!! 0%nat))).

(** The dimension check of [main]. *)
Definition too_small {A} (image : list (list A)) (a : args) : bool :=
  let '(width, height) := sizes (arg_resolution a) in
  let '(actual_height, actual_width) := shape2 image in
  (actual_width <? crop_x a + width) || (actual_height <? crop_y a + height).

(** The body of [main] after the image is loaded; [None] is [sys.exit(1)]. *)
Definition main (image : list (list HexCodec.pixel)) (a : args)
  : option envelope :=
  if too_small image a then None
  else
    let compressed_original := HexCodec.compress image in
    let info := crop_x a * 2 ^ 24 + crop_y a * 2 ^ 12 in
    Some (Envelope compressed_original info).

(** An all-black grayscale image of 483 rows and 650 columns: large enough
    for an SD crop at offset (10, 3). *)
Definition sd_canvas : list (list HexCodec.pixel) :=
  replicate 483 (replicate 650 (HexCodec.Scalar 0)).

End VimzCrop.

(** ** Grayscale, raw-array family ([veritas/benchmark/grayscale]) *)

Module VeritasGrayscale.

(** An image array: already grayscale (two axes) or RGB (three axes). *)
Inductive image : Type :=
| Gray2D (m : list (list Z))
| Rgb3D (m : list (list (Z * Z * Z))).

Definition u32 (x : Z) : Z := x mod 2 ^ 32.
Definition u8 (x : Z) : Z := x mod 2 ^ 8.

(** One cell of
    [(299 * r.astype(uint32) + 587 * g.astype(uint32) + 114 * b.astype(uint32)) // 1000]
    followed by [.astype(uint8)]. *)
Definition gray_value (px : Z * Z * Z) : Z :=
  let '(r, g, b) := px in
  u8 (u32 (u32 (u32 (299 * u32 r) + u32 (587 * u32 g)) + u32 (114 * u32 b))
      / 1000).

(** Every channel of the input is an unsigned 8-bit value. *)
Definition image_u8 (image_array : image) : Prop :=
  match image_array with
  | Gray2D m => all_u8 m
  | Rgb3D m =>
      Forall (Forall (fun px => is_u8 px.1.1 /\ is_u8 px.1.2 /\ is_u8 px.2)) m
  end.

Definition rgb_to_grayscale (image_array : image) : list (list Z) :=
  match image_array with
  | Gray2D m => m
  | Rgb3D m => map (map gray_value) m
  end.

End VeritasGrayscale.

(** ** Box blur, variant B ([vimz/image_converter/blur/blur.py]) *)

Module VimzBlur.

(** The zero-extended array: [extended[i+b][j+b] = array[i][j]], zero in
    the border of width [b]. *)
Definition extend (array : list (list Z)) (h w b : nat) : list (list Z) :=
  map (fun r =>
         map (fun c =>
                if (b <=? r)%nat && (r <? b + h)%nat
                   && (b <=? c)%nat && (c <? b + w)%nat
                then cell array (r - b) (c - b) else 0)
             (seq 0 (w + 2 * b)))
      (seq 0 (h + 2 * b)).

(** The two inner loops: the sum of [extended[i+m][j+n] * kernel[m][n]]. *)
Definition conv_value (extended kernel : list (list Z)) (kh kw i j : nat) : Z :=
  fold_left
    (fun acc m =>
       fold_left (fun acc' n => acc' + cell extended (i + m) (j + n) * cell kernel m n)
                 (seq 0 kw) acc)
    (seq 0 kh) 0.

Definition conv2d (array kernel : list (list Z)) (weight : Z) : list (list Z) :=
  let array_height := length array in
  let array_width := length (array !!! 0%nat) in
  let kernel_height := length kernel in
  let kernel_width := length (kernel !!! 0%nat) in
  let border_size := (kernel_height / 2)%nat in
  let extended := extend array array_height array_width border_size in
  map (fun i =>
         map (fun j =>
                let v := conv_value extended kernel kernel_height kernel_width i j
                         / weight in
                if 255 <? v then 255 else if v <? 0 then 0 else v)
             (seq 0 array_width))
      (seq 0 array_height).

Definition ones3 : list (list Z) := [[1; 1; 1]; [1; 1; 1]; [1; 1; 1]].

(** The per-channel kernel of [blur_and_compress]: [conv2d(channel, kernel, 9)]. *)
Definition blur_channel (channel : list (list Z)) : list (list Z) :=
  conv2d channel ones3 9.

(** [np.rollaxis(image_array, axis=-1)] and [np.dstack] on an RGB buffer. *)
Definition channel (k : nat) (image : list (list (list Z))) : list (list Z) :=
  map (map (fun px => px !!! k)) image.

Definition dstack (r g b : list (list Z)) : list (list (list Z)) :=
  zip_with (fun rr gb => zip_with (fun x yz => [x; yz.1; yz.2]) rr gb)
           r (zip_with zip g b).

(** The value the window reads at row [r] and column [c] of a channel of
    [h] rows and [w] columns: the cell, or the zero of the border. *)
Definition padded (array : list (list Z)) (h w : nat) (r c : Z) : Z :=
  if (0 <=? r) && (r <? Z.of_nat h) && (0 <=? c) && (c <? Z.of_nat w)
  then cell array (Z.to_nat r) (Z.to_nat c) else 0.

(** The sum of the 3x3 window around [(i, j)] over the zero-extended
    channel. *)
Definition padded_window (array : list (list Z)) (h w : nat) (i j : Z) : Z :=
  padded array h w (i - 1) (j - 1) + padded array h w (i - 1) j
  + padded array h w (i - 1) (j + 1)
  + padded array h w i (j - 1) + padded array h w i j
  + padded array h w i (j + 1)
  + padded array h w (i + 1) (j - 1) + padded array h w (i + 1) j
  + padded array h w (i + 1) (j + 1).

(** A uniform channel and a uniform RGB image. *)
Definition uniform {A} (h w : nat) (x : A) : list (list A) :=
  replicate h (replicate w x).

(** How many of the rows [i-1], [i], [i+1] lie inside an extent of [h]. *)
Definition inside (h i : nat) : Z :=
  (if (1 <=? i)%nat then 1 else 0) + 1 + (if (i + 1 <? h)%nat then 1 else 0).

Definition blur (image_array : list (list (list Z))) : list (list (list Z)) :=
  let r_adjusted := blur_channel (channel 0 image_array) in
  let g_adjusted := blur_channel (channel 1 image_array) in
  let b_adjusted := blur_channel (channel 2 image_array) in
  dstack r_adjusted g_adjusted b_adjusted.

End VimzBlur.

(** ** Box blur, variant A ([veritas/benchmark/blur/blur.py]) *)

Module VeritasBlur.

(** [sum(image_array[i+di][j+dj])] over the 3x3 neighbourhood. *)
Definition sum_val (image_array : list (list Z)) (i j : Z) : option Z :=
  a ← Py.index2 image_array (i - 1) (j - 1);
  b ← Py.index2 image_array (i - 1) j;
  c ← Py.index2 image_array (i - 1) (j + 1);
  d ← Py.index2 image_array i (j - 1);
  e ← Py.index2 image_array i j;
  f ← Py.index2 image_array i (j + 1);
  g ← Py.index2 image_array (i + 1) (j - 1);
  h ← Py.index2 image_array (i + 1) j;
  k ← Py.index2 image_array (i + 1) (j + 1);
  Some (a + b + c + d + e + f + g + h + k).

(** A store into the [uint8] output array keeps the low eight bits. *)
Definition u8 (x : Z) : Z := x mod 256.

(** The body of the inner loop: the two assignments to [blurred[i][j]]. *)
Definition blur_cell (image_array blurred : list (list Z)) (i j : Z)
  : option (list (list Z)) :=
  s ← sum_val image_array i j;
  blurred1 ← Py.store2 blurred i j (u8 (Py.round_div s 9));
  v ← Py.index2 blurred1 i j;
  Py.store2 blurred1 i j (u8 (Py.clamp255 v)).

(** [image_array.shape] of a two-axis array. *)
Definition shape (image_array : list (list Z)) : Z * Z :=
  (Z.of_nat (length image_array), Z.of_nat (length (image_array !!! 0%nat))).

(** The loop bounds [(start_row, start_col, end_row, end_col)]. *)
Definition bounds (height width : Z) (blur_region : option (Z * Z * Z * Z))
  : Z * Z * Z * Z :=
  match blur_region with
  | Some (start_row, start_col, blur_h, blur_w) =>
      (start_row, start_col,
       Z.min (start_row + blur_h) (height - 1),
       Z.min (start_col + blur_w) (width - 1))
  | None => (1, 1, height - 1, width - 1)
  end.

(** The cell Python reads at [image_array[i][j]] in an image of [h] rows and
    [w] columns, a negative index counting from the end. *)
Definition read (image_array : list (list Z)) (h w i j : Z) : Z :=
  cell image_array (Z.to_nat (Py.wrap h i)) (Z.to_nat (Py.wrap w j)).

(** The nine reads of [sum_val] at [(i, j)]. *)
Definition window_sum (image_array : list (list Z)) (h w i j : Z) : Z :=
  read image_array h w (i - 1) (j - 1) + read image_array h w (i - 1) j
  + read image_array h w (i - 1) (j + 1)
  + read image_array h w i (j - 1) + read image_array h w i j
  + read image_array h w i (j + 1)
  + read image_array h w (i + 1) (j - 1) + read image_array h w (i + 1) j
  + read image_array h w (i + 1) (j + 1).

(** The value the loop body leaves in [blurred[i][j]]. *)
Definition blurred_value (image_array : list (list Z)) (h w i j : Z) : Z :=
  u8 (Py.clamp255 (u8 (Py.round_div (window_sum image_array h w i j) 9))).

(** An index the loops may visit on an axis of extent [n]: its two
    neighbours exist, the index [-1] counting from the end. *)
Definition visitable (n : nat) (k : Z) : Prop := 0 <= k /\ k + 1 < Z.of_nat n.

(** The cells the loops visit. *)
Definition in_region (bnds : Z * Z * Z * Z) (i j : Z) : Prop :=
  let '(start_row, start_col, end_row, end_col) := bnds in
  start_row <= i < end_row /\ start_col <= j < end_col.

(** A region given explicitly starts inside the image. *)
Definition region_ok (blur_region : option (Z * Z * Z * Z)) : Prop :=
  match blur_region with
  | Some (start_row, start_col, _, _) => 0 <= start_row /\ 0 <= start_col
  | None => True
  end.

(** A 4x4 image used in the examples. *)
Definition sample : list (list Z) :=
  [[10; 20; 30; 40]; [50; 60; 70; 80]; [90; 100; 110; 120];
   [130; 140; 150; 160]].

Definition apply_blur (image_array : list (list Z))
    (blur_region : option (Z * Z * Z * Z)) : option (list (list Z)) :=
  let '(height, width) := shape image_array in
  let '(start_row, start_col, end_row, end_col) :=
    bounds height width blur_region in
  let blurred := image_array in
  Py.for_each
    (fun blurred i =>
       Py.for_each (fun blurred j => blur_cell image_array blurred i j)
                   (Py.range start_col end_col) blurred)
    (Py.range start_row end_row) blurred.

End VeritasBlur.

(** ** Resize, variant A ([veritas/benchmark/resize/resize.py]) *)

Module VeritasResize.

(** The body of the two loops: the value stored in [resized[i, j]].  The
    samples are promoted to wide integers in the weighted sum, which never
    wraps; [round(s / denom)] is [Py.round_div]. *)
Definition resize_cell (image_array : list (list Z))
    (height width new_height new_width i j : Z) : option Z :=
  let x_l := if 1 <? new_width
             then Z.quot ((width - 1) * j) (new_width - 1) else 0 in
  let y_l := if 1 <? new_height
             then Z.quot ((height - 1) * i) (new_height - 1) else 0 in
  let x_h := if x_l * (new_width - 1) =? (width - 1) * j
             then x_l else Z.min (x_l + 1) (width - 1) in
  let y_h := if y_l * (new_height - 1) =? (height - 1) * i
             then y_l else Z.min (y_l + 1) (height - 1) in
  a ← Py.index2 image_array y_l x_l;
  b ← Py.index2 image_array y_l x_h;
  c ← Py.index2 image_array y_h x_l;
  d ← Py.index2 image_array y_h x_h;
  let x_ratio_weighted :=
    if 1 <? new_width
    then (width - 1) * j - (new_width - 1) * ((width - 1) * j / (new_width - 1))
    else 0 in
  let y_ratio_weighted :=
    if 1 <? new_height
    then (height - 1) * i - (new_height - 1) * ((height - 1) * i / (new_height - 1))
    else 0 in
  let denom := if (1 <? new_width) && (1 <? new_height)
               then (new_width - 1) * (new_height - 1) else 1 in
  let s := a * (new_width - 1 - x_ratio_weighted) * (new_height - 1 - y_ratio_weighted)
           + b * x_ratio_weighted * (new_height - 1 - y_ratio_weighted)
           + c * y_ratio_weighted * (new_width - 1 - x_ratio_weighted)
           + d * x_ratio_weighted * y_ratio_weighted in
  let new_val := if 0 <? denom then Py.round_div s denom
                 else Py.round_div (a + b + c + d) 4 in
  Some (Py.clamp255 new_val).

(** [image_array.shape] of a two-axis array. *)
Definition shape (image_array : list (list Z)) : Z * Z :=
  (Z.of_nat (length image_array), Z.of_nat (length (image_array !!! 0%nat))).

(** [None] when [np.zeros] rejects a negative extent or a read is out of
    range. *)
Definition resize_image_bilinear (image_array : list (list Z))
    (new_height new_width : Z) : option (list (list Z)) :=
  let '(height, width) := shape image_array in
  if (new_height <? 0) || (new_width <? 0) then None
  else
    mapM (fun i =>
            mapM (fun j => resize_cell image_array height width
                                       new_height new_width i j)
                 (Py.range 0 new_width))
         (Py.range 0 new_height).

(** The mean the fallback branch of [new_val] would give. *)
Definition corner_mean (a b c d : Z) : Z := Py.round_div (a + b + c + d) 4.

End VeritasResize.

(** ** Crop, raw-array family ([veritas/benchmark/crop/crop.py]) *)

Module VeritasCrop.

Inductive resolution : Type := SD | HD | FHD | UHD4K.

Definition sizes (r : resolution) : Z * Z :=
  match r with
  | SD => (640, 480)
  | HD => (1280, 720)
  | FHD => (1920, 1080)
  | UHD4K => (3840, 2160)
  end.

(** A slice bound, as Python normalises it for a sequence of length [n]. *)
Definition slice_bound (n k : Z) : Z :=
  if k <? 0 then Z.max (k + n) 0 else Z.min k n.

(** [l[a:b]] *)
Definition slice {A} (l : list A) (a b : Z) : list A :=
  let n := Z.of_nat (length l) in
  let lo := slice_bound n a in
  let hi := slice_bound n b in
  take (Z.to_nat (hi - lo)) (drop (Z.to_nat lo) l).

Definition apply_crop (image_array : list (list Z)) (crop_x crop_y : Z)
    (crop_width crop_height : option Z) (res : resolution) : list (list Z) :=
  let height := Z.of_nat (length image_array) in
  let width := Z.of_nat (length (image_array !!! 0%nat)) in
  let '(default_width, default_height) := sizes res in
  let crop_width := default default_width crop_width in
  let crop_height := default default_height crop_height in
  let crop_width := Z.min crop_width (width - crop_x) in
  let crop_height := Z.min crop_height (height - crop_y) in
  map (fun row => slice row crop_x (crop_x + crop_width))
      (slice image_array crop_y (crop_y + crop_height)).

End VeritasCrop.

(** ** Binary64 arithmetic of the float-based kernels *)

Module F64.

Definition mul : spec_float -> spec_float -> spec_float := SFmul prec emax.
Definition add : spec_float -> spec_float -> spec_float := SFadd prec emax.
Definition sub : spec_float -> spec_float -> spec_float := SFsub prec emax.

(** [x / y] between Python floats: [None] is [ZeroDivisionError]. *)
Definition is_zero (x : spec_float) : bool :=
  match x with S754_zero _ => true | _ => false end.
Definition py_div (x y : spec_float) : option spec_float :=
  if is_zero y then None else Some (SFdiv prec emax x y).

(** [x / y] between numpy floats (no exception). *)
Definition div : spec_float -> spec_float -> spec_float := SFdiv prec emax.

(** [float(z)], exact below [2^53]. *)
Definition of_int (z : Z) : spec_float := binary_normalize prec emax z 0 false.

(** The float [m * 2^e] (exact when [m] has at most 53 bits). *)
Definition dyadic (m e : Z) : spec_float := binary_normalize prec emax m e false.

(** The integer part of [m * 2^e], towards zero. *)
Definition trunc_mag (m : positive) (e : Z) : Z :=
  if 0 <=? e then Z.pos m * 2 ^ e else Z.pos m / 2 ^ (- e).

(** [int(x)]: [None] for an infinity or a NaN ([OverflowError],
    [ValueError]). *)
Definition to_int (x : spec_float) : option Z :=
  match x with
  | S754_zero _ => Some 0
  | S754_finite s m e => Some (if s then - trunc_mag m e else trunc_mag m e)
  | _ => None
  end.

(** [round(x)]: the nearest integer, a tie going to the even one. *)
Definition round (x : spec_float) : option Z :=
  match x with
  | S754_zero _ => Some 0
  | S754_finite s m e =>
      let r := if 0 <=? e then Z.pos m * 2 ^ e
               else Py.round_div (Z.pos m) (2 ^ (- e)) in
      Some (if s then - r else r)
  | _ => None
  end.

(** Comparison of the represented values: the numerators of [x] and [y]
    over the common denominator [2^(-e0)]. *)
Definition exponent (x : spec_float) : Z :=
  match x with S754_finite _ _ e => e | _ => 0 end.
Definition numerator (e0 : Z) (x : spec_float) : Z :=
  match x with
  | S754_finite s m e => (if s then - Z.pos m else Z.pos m) * 2 ^ (e - e0)
  | _ => 0
  end.
Definition ltb (x y : spec_float) : bool :=
  match x, y with
  | S754_nan, _ | _, S754_nan => false
  | S754_infinity sx, S754_infinity sy => sx && negb sy
  | S754_infinity sx, _ => sx
  | _, S754_infinity sy => negb sy
  | _, _ =>
      let e0 := Z.min (exponent x) (exponent y) in
      numerator e0 x <? numerator e0 y
  end.

(** [np.clip(x, lo, hi)] on one element: a NaN stays a NaN. *)
Definition clip (x lo hi : spec_float) : spec_float :=
  match x with
  | S754_nan => S754_nan
  | _ => if ltb x lo then lo else if ltb hi x then hi else x
  end.

(** The conversion of a float to [uint8] ([astype(np.uint8)] and the store
    into a [uint8] array): the integer part, of which the low eight bits are
    kept; an infinity or a NaN gives 0 on the usual platforms. *)
Definition to_u8 (x : spec_float) : Z :=
  match to_int x with
  | Some t => t mod 256
  | None => 0
  end.

(** [math.isfinite(x)]: neither an infinity nor a NaN. *)
Definition is_finite (x : spec_float) : bool :=
  match x with
  | S754_zero _ | S754_finite _ _ _ => true
  | _ => false
  end.

End F64.

(** ** Brightness ([vimz/image_converter/brightness/brightness.py]) *)

Module VimzBrightness.

Import HexCodec.

(** An elementwise operation on every channel of every cell. *)
Definition map_channels (f : N -> N) (image : list (list pixel))
  : list (list pixel) :=
  map (map (fun px => match px with
                      | Scalar v => Scalar (f v)
                      | Rgb c0 c1 c2 => Rgb (f c0) (f c1) (f c2)
                      end)) image.

(** [np.clip(v.astype(float) * brightness_factor, 0, 255).astype(np.uint8)] *)
Definition adjust_value (brightness_factor : spec_float) (v : N) : N :=
  let np_image_float := F64.of_int (Z.of_N v) in
  let adjusted_image_float := F64.mul np_image_float brightness_factor in
  Z.to_N (F64.to_u8 (F64.clip adjusted_image_float (F64.of_int 0) (F64.of_int 255))).

Definition adjust_brightness (image_array : list (list pixel))
    (brightness_factor : spec_float) : list (list pixel) :=
  map_channels (adjust_value brightness_factor) image_array.

Definition adjust_brightness_and_compress (image_array : list (list pixel))
    (brightness_factor : spec_float) : list (list string) :=
  compress (adjust_brightness image_array brightness_factor).

Record envelope : Type := Envelope {
  original : list (list string);
  transformed : list (list string);
  factor : Z
}.

(** The body of [main] after the image is loaded; [None] is the exit on an
    exception ([int] of a non-finite float). *)
Definition main (image_np : list (list pixel)) (arg_factor : spec_float)
  : option envelope :=
  let compressed_original := compress image_np in
  let compressed_transformed :=
    adjust_brightness_and_compress image_np arg_factor in
  f ← F64.to_int (F64.mul arg_factor (F64.of_int 10));
  Some (Envelope compressed_original compressed_transformed f).

End VimzBrightness.

(** ** Contrast ([vimz/image_converter/contrast/contrast.py]) *)

Module VimzContrast.

Import HexCodec.

(** [int(128 * 1000)] *)
Definition mean1000 : Z := 128 * 1000.

(** [((v - float(mean)/1000) * contrast_factor + float(mean)/1000).clip(0, 255).astype(np.uint8)] *)
Definition adjust_value (contrast_factor : spec_float) (v : N) : N :=
  let mean := F64.div (F64.of_int mean1000) (F64.of_int 1000) in
  let x := F64.add (F64.mul (F64.sub (F64.of_int (Z.of_N v)) mean) contrast_factor)
                   mean in
  Z.to_N (F64.to_u8 (F64.clip x (F64.of_int 0) (F64.of_int 255))).

(** The three channels are unpacked from the last axis: a scalar cell has
    none ([None] is the exception). *)
Definition adjust_pixel (contrast_factor : spec_float) (px : pixel)
  : option pixel :=
  match px with
  | Rgb r g b => Some (Rgb (adjust_value contrast_factor r)
                           (adjust_value contrast_factor g)
                           (adjust_value contrast_factor b))
  | Scalar _ => None
  end.

Definition adjust_contrast (image_array : list (list pixel))
    (contrast_factor : spec_float) : option (list (list pixel)) :=
  mapM (mapM (adjust_pixel contrast_factor)) image_array.

Definition adjust_contrast_and_compress (image_array : list (list pixel))
    (contrast_factor : spec_float) : option (list (list string)) :=
  compress <$> adjust_contrast image_array contrast_factor.

Record envelope : Type := Envelope {
  original : list (list string);
  transformed : list (list string);
  factor : Z
}.

Definition main (image_np : list (list pixel)) (arg_factor : spec_float)
  : option envelope :=
  let compressed_original := compress image_np in
  compressed_transformed ← adjust_contrast_and_compress image_np arg_factor;
  f ← F64.to_int (F64.mul arg_factor (F64.of_int 10));
  Some (Envelope compressed_original compressed_transformed f).

End VimzContrast.

(** ** Resize, variant B ([vimz/image_converter/resize/resize.py]) *)

Module VimzResize.

(** [a * wa + b * wb + c * wc + d * wd] on channel vectors, then [/ 2] and
    the store into the [uint8] output. *)
Definition blend (wa wb wc wd : spec_float) (a b c d : list Z) : list Z :=
  let scale w v := map (fun x => F64.mul (F64.of_int x) w) v in
  let summ :=
    zip_with F64.add
      (zip_with F64.add (zip_with F64.add (scale wa a) (scale wb b)) (scale wc c))
      (scale wd d) in
  map (fun x => F64.to_u8 (F64.div x (F64.of_int 2))) summ.

Definition resize_cell (image_array : list (list (list Z)))
    (special : bool) (x_ratio y_ratio : spec_float) (i j : Z)
  : option (list Z) :=
  x_l ← F64.to_int (F64.mul (F64.of_int j) x_ratio);
  let x_h := x_l + 1 in
  y_l ← F64.to_int (F64.mul (F64.of_int i) y_ratio);
  let y_h := y_l + 1 in
  a ← Py.index2 image_array y_l x_l;
  b ← Py.index2 image_array y_l x_h;
  c ← Py.index2 image_array y_h x_l;
  d ← Py.index2 image_array y_h x_h;
  if special then
    let weight := if i mod 2 =? 0 then 2 else 1 in
    let weight := F64.div (F64.of_int weight) (F64.of_int 3) in
    let rest := F64.sub (F64.of_int 1) weight in
    Some (blend weight weight rest rest a b c d)
  else
    let weight := F64.div (F64.of_int 1) (F64.of_int 2) in
    Some (blend weight weight weight weight a b c d).

Definition resize_image (image_array : list (list (list Z)))
    (new_height new_width : Z) : option (list (list (list Z))) :=
  let height := Z.of_nat (length image_array) in
  let width := Z.of_nat (length (image_array !!! 0%nat)) in
  x_ratio ← F64.py_div (F64.of_int width) (F64.of_int new_width);
  y_ratio ← F64.py_div (F64.of_int height) (F64.of_int new_height);
  if (new_height <? 0) || (new_width <? 0) then None
  else
    mapM (fun i =>
            mapM (fun j => resize_cell image_array (height =? 720)
                                       x_ratio y_ratio i j)
                 (Py.range 0 new_width))
         (Py.range 0 new_height).

End VimzResize.

(** ** The envelope of the blur converter ([vimz/image_converter/blur/blur.py]) *)

Module VimzBlurMain.

(** A cell of an RGB array as [compress] reads it: the channels 0, 1 and 2
    of the cell, each through [int]. *)
Definition to_pixel (px : list Z) : HexCodec.pixel :=
  HexCodec.Rgb (Z.to_N (px !!! 0%nat)) (Z.to_N (px !!! 1%nat))
               (Z.to_N (px !!! 2%nat)).

Definition to_pixels (image : list (list (list Z))) : list (list HexCodec.pixel) :=
  map (map to_pixel) image.

(** [r_channel, g_channel, b_channel = np.rollaxis(image_array, axis=-1)]
    unpacks only an array whose last axis has three entries. *)
Definition three_channels (image : list (list (list Z))) : bool :=
  forallb (forallb (fun px => (length px =? 3)%nat)) image.

(** [blur_and_compress]: the three channels are convolved, stacked and
    compressed; [None] is the exception of the unpacking. *)
Definition blur_and_compress (image_array : list (list (list Z)))
  : option (list (list string)) :=
  if three_channels image_array then
    let adjusted_image := VimzBlur.blur image_array in
    Some (HexCodec.compress (to_pixels adjusted_image))
  else None.

Record envelope : Type := Envelope {
  original : list (list string);
  transformed : list (list string)
}.

(** The body of [main] after the image is loaded: the compressed original
    between two rows of ["0x00"] words, and the compressed blur; [None] is
    the exit on an exception ([image_np[0]] of an empty array, or the
    unpacking of the channels). *)
Definition main (image_np : list (list (list Z))) : option envelope :=
  let compressed_original := HexCodec.compress (to_pixels image_np) in
  row0 ← image_np !! 0%nat;
  let width := length row0 in
  let zeros_per_row := (width / 10)%nat in
  let compressed_zeros := [replicate zeros_per_row "0x00"%string] in
  compressed_transformed ← blur_and_compress image_np;
  Some (Envelope (compressed_zeros ++ compressed_original ++ compressed_zeros)
                 compressed_transformed).

End VimzBlurMain.

(** ** The arrays of the grayscale converter
    ([veritas/benchmark/grayscale/grayscale.py], [main]) *)

Module VeritasGrayscaleMain.

(** [m[0:region_h, 0:region_w]] *)
Definition region {A} (m : list (list A)) (region_h region_w : Z)
  : list (list A) :=
  map (fun row => VeritasCrop.slice row 0 region_w)
      (VeritasCrop.slice m 0 region_h).

(** The two arrays [main] serialises, [(image_np, grayscale_np)]: the
    grayscale of the full image, both cut to the region when
    [--process-region] is given. *)
Definition arrays (image_np : list (list (Z * Z * Z))) (process_region : bool)
    (region_height region_width : Z)
  : list (list (Z * Z * Z)) * list (list Z) :=
  let grayscale_np_full :=
    VeritasGrayscale.rgb_to_grayscale (VeritasGrayscale.Rgb3D image_np) in
  if process_region then
    let region_h := Z.min region_height (Z.of_nat (length image_np)) in
    let region_w := Z.min region_width
                          (Z.of_nat (length (image_np !!! 0%nat))) in
    (region image_np region_h region_w,
     region grayscale_np_full region_h region_w)
  else (image_np, grayscale_np_full).

End VeritasGrayscaleMain.

(** * Properties *)

(** ** Crop info packing *)

Lemma crop_main_info image a :
  VimzCrop.info <$> VimzCrop.main image a =
  if VimzCrop.too_small image a then None
  else Some (VimzCrop.crop_x a * 2 ^ 24 + VimzCrop.crop_y a * 2 ^ 12).
Proof. unfold VimzCrop.main. by destruct (VimzCrop.too_small image a). Qed.

Lemma sd_canvas_fits :
  VimzCrop.too_small VimzCrop.sd_canvas (VimzCrop.Args VimzCrop.SD 10 3) = false.
Proof. vm_compute. reflexivity. Qed.

(** C4 (as stated): with [crop_x = 10] and [crop_y = 3] the envelope's [info]
    is not 167,804,928: on an image that passes the dimension check it is
    167,784,448. *)
Lemma crop_info_scenario_counterexample :
  VimzCrop.info <$> VimzCrop.main VimzCrop.sd_canvas (VimzCrop.Args VimzCrop.SD 10 3)
  = Some 167784448
  /\ VimzCrop.info <$> VimzCrop.main VimzCrop.sd_canvas (VimzCrop.Args VimzCrop.SD 10 3)
     <> Some 167804928.
Proof.
  rewrite crop_main_info, sd_canvas_fits. split; [reflexivity | discriminate].
Qed.

(** C4 (amended): whenever [main] gets past its dimension check, the
    envelope's [info] field is [crop_x * 2^24 + crop_y * 2^12]; for
    [crop_x = 10] and [crop_y = 3] that is 167,784,448
    (= 167,772,160 + 12,288). *)
Theorem crop_info_packing :
  (forall image a,
      VimzCrop.info <$> VimzCrop.main image a =
      if VimzCrop.too_small image a then None
      else Some (VimzCrop.crop_x a * 2 ^ 24 + VimzCrop.crop_y a * 2 ^ 12))
  /\ (forall image res,
         VimzCrop.info <$> VimzCrop.main image (VimzCrop.Args res 10 3) =
         if VimzCrop.too_small image (VimzCrop.Args res 10 3) then None
         else Some (167772160 + 12288))
  /\ 167772160 + 12288 = 167784448.
Proof.
  split; [exact crop_main_info |].
  split; [| reflexivity].
  intros image res. rewrite crop_main_info. reflexivity.
Qed.

(** ** Grayscale *)

Lemma gray_value_floor r g b :
  is_u8 r -> is_u8 g -> is_u8 b ->
  VeritasGrayscale.gray_value (r, g, b) = (299 * r + 587 * g + 114 * b) / 1000
  /\ is_u8 (VeritasGrayscale.gray_value (r, g, b)).
Proof.
  unfold is_u8. intros Hr Hg Hb.
  assert (Hq : 0 <= (299 * r + 587 * g + 114 * b) / 1000 <= 255).
  { split; [apply Z.div_pos; lia |].
    apply Z.div_le_upper_bound; lia. }
  unfold VeritasGrayscale.gray_value, VeritasGrayscale.u32, VeritasGrayscale.u8.
  rewrite !(Z.mod_small r), !(Z.mod_small g), !(Z.mod_small b) by lia.
  rewrite !(Z.mod_small (299 * r)), !(Z.mod_small (587 * g)),
    !(Z.mod_small (114 * b)) by lia.
  rewrite (Z.mod_small (299 * r + 587 * g)) by lia.
  rewrite (Z.mod_small (299 * r + 587 * g + 114 * b)) by lia.
  rewrite Z.mod_small by lia. split; [reflexivity | exact Hq].
Qed.

(** C5 (as stated): pure green does not map to 146 nor pure blue to 28; the
    kernel gives 149 and 29. *)
Lemma grayscale_scenario_counterexample :
  VeritasGrayscale.rgb_to_grayscale
    (VeritasGrayscale.Rgb3D [[(0, 255, 0); (0, 0, 255)]]) = [[149; 29]]
  /\ VeritasGrayscale.rgb_to_grayscale
       (VeritasGrayscale.Rgb3D [[(0, 255, 0); (0, 0, 255)]]) <> [[146; 28]].
Proof. split; [reflexivity | discriminate]. Qed.

(** C5 (amended): for every RGB pixel of 8-bit channels the grayscale kernel
    computes [floor((299*R + 587*G + 114*B) / 1000)], the 32-bit sums never
    wrapping and the result fitting eight bits; (255,0,0) maps to 76,
    (0,255,0) to 149 and (0,0,255) to 29. *)
Theorem grayscale_formula :
  (forall r g b,
      is_u8 r -> is_u8 g -> is_u8 b ->
      VeritasGrayscale.rgb_to_grayscale (VeritasGrayscale.Rgb3D [[(r, g, b)]])
      = [[(299 * r + 587 * g + 114 * b) / 1000]])
  /\ VeritasGrayscale.rgb_to_grayscale
       (VeritasGrayscale.Rgb3D [[(255, 0, 0); (0, 255, 0); (0, 0, 255)]])
     = [[76; 149; 29]].
Proof.
  split; [| reflexivity].
  intros r g b Hr Hg Hb.
  destruct (gray_value_floor r g b Hr Hg Hb) as [Heq _].
  cbn [VeritasGrayscale.rgb_to_grayscale map]. by rewrite Heq.
Qed.

Lemma grayscale_formula_witness :
  VeritasGrayscale.rgb_to_grayscale (VeritasGrayscale.Rgb3D [[(12, 200, 7)]])
  = [[(299 * 12 + 587 * 200 + 114 * 7) / 1000]].
Proof.
  apply (proj1 grayscale_formula 12 200 7); unfold is_u8; lia.
Defined.

(** ** The hex codec *)

Section StringFacts.

Lemma string_app_cons (a : ascii) (s t : string) :
  String a s +:+ t = String a (s +:+ t).
Proof. reflexivity. Qed.

Lemma string_app_nil_r (s : string) : s +:+ EmptyString = s.
Proof.
  induction s as [|a s IH]; [reflexivity |].
  by rewrite string_app_cons, IH.
Qed.

Lemma string_app_assoc (s t u : string) : (s +:+ t) +:+ u = s +:+ (t +:+ u).
Proof.
  induction s as [|a s IH]; [reflexivity |].
  by rewrite !string_app_cons, IH.
Qed.

Lemma string_length_app (s t : string) :
  String.length (s +:+ t) = (String.length s + String.length t)%nat.
Proof.
  induction s as [|a s IH]; [reflexivity |].
  rewrite string_app_cons. cbn [String.length]. by rewrite IH.
Qed.

End StringFacts.

Section HexDigits.

Import HexCodec.

Lemma length_zeros k : String.length (zeros k) = k.
Proof. induction k as [|k IH]; [reflexivity |]. cbn. by rewrite IH. Qed.

Lemma to_N_zeros k s : HexString.Raw.to_N (zeros k +:+ s) 0%N = HexString.Raw.to_N s 0%N.
Proof.
  induction k as [|k IH]; [reflexivity |].
  cbn [zeros]. rewrite string_app_cons. exact IH.
Qed.

Lemma to_N_hex_digits n : HexString.Raw.to_N (hex_digits n) 0%N = n.
Proof.
  destruct n as [|p]; [reflexivity |].
  unfold hex_digits, HexString.of_N, HexString.of_pos, drop2.
  apply HexString.Raw.to_N_of_pos.
Qed.

Lemma to_N_zfill w n : HexString.Raw.to_N (zfill w (hex_digits n)) 0%N = n.
Proof. unfold zfill. rewrite to_N_zeros. apply to_N_hex_digits. Qed.

Lemma length_of_pos (w : nat) : forall (p : positive) (rest : string),
  (N.pos p < 16 ^ N.of_nat w)%N ->
  (String.length (HexString.Raw.of_pos p rest) <= w + String.length rest)%nat.
Proof.
  induction w as [|w IH]; intros p rest Hp.
  - change (16 ^ N.of_nat 0)%N with 1%N in Hp. lia.
  - rewrite Nat2N.inj_succ, N.pow_succ_r' in Hp.
    do 4 try destruct p as [p|p|]; cbn [HexString.Raw.of_pos String.length];
      try lia;
      (etrans; [apply IH; lia | cbn [String.length]; lia]).
Qed.

Lemma length_hex_digits (w : nat) n :
  (0 < w)%nat -> (n < 16 ^ N.of_nat w)%N -> (String.length (hex_digits n) <= w)%nat.
Proof.
  intros Hw Hn. destruct n as [|p]; [cbn; lia |].
  unfold hex_digits, HexString.of_N, HexString.of_pos, drop2.
  pose proof (length_of_pos w p EmptyString Hn) as H. cbn in H. lia.
Qed.

Lemma length_zfill (w : nat) n :
  (0 < w)%nat -> (n < 16 ^ N.of_nat w)%N -> String.length (zfill w (hex_digits n)) = w.
Proof.
  intros Hw Hn. unfold zfill. rewrite string_length_app, length_zeros.
  pose proof (length_hex_digits w n Hw Hn). lia.
Qed.

End HexDigits.

Section CompressLoop.

Import HexCodec.

Lemma add_pixel_digits px h : add_pixel px h = pixel_digits px +:+ h.
Proof.
  destruct px as [v | c0 c1 c2]; unfold pixel_digits, add_pixel; cbn [fold_left].
  - by rewrite string_app_nil_r.
  - by rewrite string_app_nil_r, !string_app_assoc.
Qed.

Lemma group_digits_snoc (l : list pixel) px :
  group_digits (l ++ [px]) = pixel_digits px +:+ group_digits l.
Proof.
  induction l as [|q l IH]; cbn [app group_digits].
  - by rewrite string_app_nil_r.
  - by rewrite IH, string_app_assoc.
Qed.

(** While the group is not closed the loop only grows the accumulator. *)
Lemma compress_open_group (l : list pixel) : forall (j : nat) h out,
  (j mod 10 + length l < 10)%nat ->
  fold_left compress_step l (LoopState j h out)
  = LoopState (j + length l) (group_digits l +:+ h) out.
Proof.
  induction l as [|px l IH]; intros j h out Hlen.
  - cbn. by rewrite Nat.add_0_r.
  - cbn [fold_left length] in *. unfold compress_step at 2. cbn [ls_j ls_hex ls_row].
    destruct (Nat.eqb_spec (j mod 10) 9) as [E | _]; [lia |].
    rewrite IH.
    + cbn [group_digits]. rewrite add_pixel_digits, string_app_assoc.
      f_equal. lia.
    + assert (S j mod 10 = S (j mod 10))%nat as ->; [| lia].
      pose proof (Nat.div_mod_eq j 10) as Hj.
      pose proof (Nat.mod_upper_bound j 10 ltac:(lia)) as Hb.
      symmetry. apply (Nat.mod_unique _ 10 (j / 10)); lia.
Qed.

(** The words emitted so far are never touched again. *)
Lemma compress_emitted (l : list pixel) : forall (j : nat) h out,
  ls_row (fold_left compress_step l (LoopState j h out))
  = out ++ ls_row (fold_left compress_step l (LoopState j h [])).
Proof.
  induction l as [|px l IH]; intros j h out.
  - cbn. by rewrite app_nil_r.
  - cbn [fold_left]. unfold compress_step at 2 4. cbn [ls_j ls_hex ls_row].
    destruct (j mod 10 =? 9)%nat.
    + rewrite IH. rewrite (IH _ _ ([] ++ _)). by rewrite app_assoc.
    + apply IH.
Qed.

(** Only [j mod 10] matters to the loop. *)
Lemma compress_index_shift (l : list pixel) : forall (j : nat) h,
  ls_row (fold_left compress_step l (LoopState (j + 10) h []))
  = ls_row (fold_left compress_step l (LoopState j h [])).
Proof.
  induction l as [|px l IH]; intros j h; [reflexivity |].
  cbn [fold_left]. unfold compress_step at 2 4. cbn [ls_j ls_hex ls_row].
  assert ((j + 10) mod 10 = j mod 10)%nat as ->.
  { replace (j + 10)%nat with (j + 1 * 10)%nat by lia. apply Nat.Div0.mod_add. }
  destruct (j mod 10 =? 9)%nat.
  - rewrite compress_emitted. rewrite (compress_emitted _ (S j)).
    f_equal. apply (IH (S j)).
  - apply (IH (S j)).
Qed.

(** Fewer than ten pixels: no word. *)
Lemma compress_row_short (l : list pixel) :
  (length l < 10)%nat -> compress_row l = [].
Proof.
  intros Hl. unfold compress_row.
  rewrite compress_open_group by (cbn; lia). reflexivity.
Qed.

(** Ten pixels close a group: one word, then the rest of the row. *)
Lemma compress_row_group (g rest : list pixel) :
  length g = 10%nat ->
  compress_row (g ++ rest) = ("0x" +:+ group_digits g) :: compress_row rest.
Proof.
  intros Hg. unfold compress_row.
  destruct (rev g) as [|px g'] eqn:Hrev.
  { apply (f_equal (@length _)) in Hrev. rewrite length_rev in Hrev.
    cbn in Hrev. lia. }
  assert (Hsplit : g = rev g' ++ [px]).
  { rewrite <- (rev_involutive g), Hrev. reflexivity. }
  assert (Hg' : length (rev g') = 9%nat).
  { rewrite Hsplit, length_app in Hg. cbn in Hg. lia. }
  rewrite Hsplit, <- !app_assoc, fold_left_app.
  rewrite compress_open_group by (rewrite Hg'; cbn; lia).
  rewrite Hg'. cbn [app fold_left]. unfold compress_step at 2.
  cbn [ls_j ls_hex ls_row].
  change ((0 + 9) mod 10 =? 9)%nat with true. cbv iota.
  rewrite compress_emitted. cbn [app].
  change (S (0 + 9))%nat with (0 + 10)%nat.
  rewrite (compress_index_shift rest 0). f_equal. f_equal.
  rewrite add_pixel_digits, string_app_nil_r.
  symmetry. apply group_digits_snoc.
Qed.

End CompressLoop.

Section Decoder.

Import HexCodec.

Lemma chunks6_app (e t : string) :
  String.length e = 6%nat -> chunks6 (e +:+ t) = e :: chunks6 t.
Proof.
  intros He.
  do 7 (destruct e as [|? e]; [try discriminate He | ]); [| discriminate He].
  rewrite !string_app_cons. reflexivity.
Qed.

Lemma pixel_digits_length d px :
  fits d px -> String.length (pixel_digits px) = 6%nat.
Proof.
  destruct d, px as [v | c0 c1 c2]; cbn [fits]; try done.
  - intros Hv. unfold pixel_digits, add_pixel.
    rewrite string_app_nil_r. apply (length_zfill 6); [lia | exact Hv].
  - intros (H0 & H1 & H2). unfold pixel_digits, add_pixel. cbn [fold_left].
    rewrite !string_length_app.
    rewrite (length_zfill 2 c0 ltac:(lia) H0), (length_zfill 2 c1 ltac:(lia) H1),
      (length_zfill 2 c2 ltac:(lia) H2).
    reflexivity.
Qed.

Lemma two_digits c :
  (c < 256)%N ->
  exists x y, zfill 2 (hex_digits c) = String x (String y EmptyString)
              /\ HexString.Raw.to_N (String x (String y EmptyString)) 0%N = c.
Proof.
  intros Hc. pose proof (length_zfill 2 c ltac:(lia) Hc) as Hlen.
  pose proof (to_N_zfill 2 c) as Hval.
  destruct (zfill 2 (hex_digits c)) as [|x [|y [|? ?]]]; try discriminate Hlen.
  by exists x, y.
Qed.

Lemma decode_pixel_digits d px :
  fits d px -> decode_pixel d (pixel_digits px) = px.
Proof.
  destruct d, px as [v | c0 c1 c2]; cbn [fits]; try done.
  - intros _. unfold pixel_digits, add_pixel, decode_pixel.
    by rewrite string_app_nil_r, to_N_zfill.
  - intros (H0 & H1 & H2). unfold pixel_digits, add_pixel. cbn [fold_left].
    destruct (two_digits c0 H0) as (x0 & y0 & -> & E0).
    destruct (two_digits c1 H1) as (x1 & y1 & -> & E1).
    destruct (two_digits c2 H2) as (x2 & y2 & -> & E2).
    change (decode_pixel Depth3
              (String x2 (String y2 (String x1 (String y1
                 (String x0 (String y0 EmptyString))))))
            = Rgb c0 c1 c2).
    cbn [decode_pixel]. by rewrite E0, E1, E2.
Qed.

Lemma chunks6_group d (g : list pixel) : forall t,
  Forall (fits d) g ->
  chunks6 (group_digits g +:+ t) = map pixel_digits (rev g) ++ chunks6 t.
Proof.
  induction g as [|px g IH]; intros t Hg; [reflexivity |].
  apply Forall_cons in Hg as [Hpx Hg].
  cbn [group_digits rev]. rewrite string_app_assoc, IH by done.
  rewrite (chunks6_app (pixel_digits px)) by (by eapply pixel_digits_length).
  rewrite map_app, <- app_assoc. reflexivity.
Qed.

(** Unpacking the word of a group gives the group back. *)
Lemma unpack_word_group d (g : list pixel) :
  Forall (fits d) g -> unpack_word d ("0x" +:+ group_digits g) = g.
Proof.
  intros Hg. unfold unpack_word.
  change (drop2 ("0x" +:+ group_digits g)) with (group_digits g).
  rewrite <- (string_app_nil_r (group_digits g)), (chunks6_group d) by done.
  cbn [chunks6]. rewrite app_nil_r, map_map, <- map_rev, rev_involutive.
  clear -Hg. induction Hg as [|px g Hpx _ IH]; [reflexivity |].
  cbn [map]. by rewrite decode_pixel_digits, IH.
Qed.

(** A row of [10 * k + r] pixels ([r < 10]): [k] words, which unpack to the
    first [10 * k] pixels and do not depend on the last [r]. *)
Lemma compress_row_words d (k : nat) : forall (row : list pixel) (r : nat),
  Forall (fits d) row -> length row = (10 * k + r)%nat -> (r < 10)%nat ->
  length (compress_row row) = k
  /\ unpack_row d (compress_row row) = take (10 * k) row
  /\ compress_row row = compress_row (take (10 * k) row).
Proof.
  induction k as [|k IH]; intros row r Hfit Hlen Hr.
  - rewrite Nat.mul_0_r, take_0. rewrite !compress_row_short by (cbn; lia).
    done.
  - assert (Hrow : row = take 10 row ++ drop 10 row) by (by rewrite take_drop).
    assert (Hg : length (take 10 row) = 10%nat) by (rewrite length_take; lia).
    destruct (IH (drop 10 row) r) as (Hl & Hu & Hc);
      [by apply Forall_drop | rewrite length_drop; lia | done |].
    assert (Htake : take (10 * S k) row = take 10 row ++ take (10 * k) (drop 10 row)).
    { rewrite take_take_drop. f_equal. lia. }
    assert (Hfull : compress_row row
                    = ("0x" +:+ group_digits (take 10 row))
                      :: compress_row (drop 10 row)).
    { rewrite Hrow at 1. by apply compress_row_group. }
    rewrite Htake, Hfull, compress_row_group by done.
    split; [cbn [length]; by rewrite Hl |].
    split.
    + unfold unpack_row in *. cbn [map concat].
      rewrite (unpack_word_group d) by (by apply Forall_take). by rewrite Hu.
    + by rewrite Hc.
Qed.

End Decoder.

(** C1: a row of [10 * k] pixels is packed into exactly [k] words from which
    the decoder reconstructs the row; a row of [10 * k + r] pixels
    ([0 < r < 10]) is packed into exactly [k] words, which are the words of its
    first [10 * k] pixels: the last [r] pixels are absent, and [compress_row],
    a total function, signals nothing. *)
Theorem compress_roundtrip_and_truncation
    (d : HexCodec.depth) (row : list HexCodec.pixel) (k r : nat) :
  Forall (HexCodec.fits d) row ->
  length row = (10 * k + r)%nat ->
  (r < 10)%nat ->
  length (HexCodec.compress_row row) = k
  /\ (r = 0%nat -> HexCodec.unpack_row d (HexCodec.compress_row row) = row)
  /\ HexCodec.compress_row row = HexCodec.compress_row (take (10 * k) row)
  /\ HexCodec.unpack_row d (HexCodec.compress_row row) = take (10 * k) row.
Proof.
  intros Hfit Hlen Hr.
  destruct (compress_row_words d k row r Hfit Hlen Hr) as (Hl & Hu & Hc).
  repeat split; try done.
  intros ->. rewrite Hu. apply take_ge. lia.
Qed.

Lemma compress_roundtrip_and_truncation_witness :
  length (HexCodec.compress_row HexCodec.twelve_gray) = 1%nat
  /\ (2%nat = 0%nat ->
      HexCodec.unpack_row HexCodec.Depth1
        (HexCodec.compress_row HexCodec.twelve_gray) = HexCodec.twelve_gray)
  /\ HexCodec.compress_row HexCodec.twelve_gray
     = HexCodec.compress_row (take (10 * 1) HexCodec.twelve_gray)
  /\ HexCodec.unpack_row HexCodec.Depth1
       (HexCodec.compress_row HexCodec.twelve_gray)
     = take (10 * 1) HexCodec.twelve_gray.
Proof.
  apply (compress_roundtrip_and_truncation HexCodec.Depth1
           HexCodec.twelve_gray 1 2).
  - repeat constructor.
  - reflexivity.
  - lia.
Defined.

(** C2 (as stated): in the word of a group the first pixel does not occupy
    the most significant digits: for the pixels 1, 2, ..., 10 the word starts
    with the digits of the tenth pixel and ends with those of the first. *)
Lemma compress_first_pixel_leading_counterexample :
  HexCodec.compress_row HexCodec.ten_gray
  = ["0x00000a000009000008000007000006000005000004000003000002000001"]
  /\ HexCodec.compress_row HexCodec.ten_gray
     <> ["0x" +:+ HexCodec.digits_first_pixel_leading HexCodec.ten_gray].
Proof. split; [reflexivity | vm_compute; discriminate]. Qed.

(** C2 (amended): a full group of ten pixels is packed into one word; a
    scalar pixel contributes six zero-padded hex digits, an RGB pixel three
    two-digit segments with channel 2 first; each pixel's digits are put in
    front of the accumulator, so the tenth (group-closing) pixel occupies the
    most significant digits of the word and the first pixel the least
    significant ones. *)
Theorem compress_group_layout :
  (forall p0 p1 p2 p3 p4 p5 p6 p7 p8 p9,
      HexCodec.compress_row [p0; p1; p2; p3; p4; p5; p6; p7; p8; p9]
      = ["0x" +:+ HexCodec.pixel_digits p9 +:+ HexCodec.pixel_digits p8
              +:+ HexCodec.pixel_digits p7 +:+ HexCodec.pixel_digits p6
              +:+ HexCodec.pixel_digits p5 +:+ HexCodec.pixel_digits p4
              +:+ HexCodec.pixel_digits p3 +:+ HexCodec.pixel_digits p2
              +:+ HexCodec.pixel_digits p1 +:+ HexCodec.pixel_digits p0])
  /\ (forall v h,
         HexCodec.add_pixel (HexCodec.Scalar v) h
         = HexCodec.zfill 6 (HexCodec.hex_digits v) +:+ h)
  /\ (forall c0 c1 c2 h,
         HexCodec.add_pixel (HexCodec.Rgb c0 c1 c2) h
         = HexCodec.zfill 2 (HexCodec.hex_digits c2)
           +:+ HexCodec.zfill 2 (HexCodec.hex_digits c1)
           +:+ HexCodec.zfill 2 (HexCodec.hex_digits c0) +:+ h)
  /\ (forall v, (v < 2 ^ 24)%N ->
         String.length (HexCodec.zfill 6 (HexCodec.hex_digits v)) = 6%nat)
  /\ (forall c, (c < 256)%N ->
         String.length (HexCodec.zfill 2 (HexCodec.hex_digits c)) = 2%nat).
Proof.
  split.
  { intros p0 p1 p2 p3 p4 p5 p6 p7 p8 p9.
    pose proof (compress_row_group [p0; p1; p2; p3; p4; p5; p6; p7; p8; p9] []
                  eq_refl) as H.
    rewrite app_nil_r in H. rewrite H. cbn [HexCodec.group_digits].
    rewrite (compress_row_short []) by (cbn; lia).
    f_equal. f_equal. change (EmptyString +:+ ?s) with s.
    by rewrite !string_app_assoc. }
  split; [reflexivity |].
  split; [reflexivity |].
  split.
  - intros v Hv. apply (length_zfill 6); [lia | exact Hv].
  - intros c Hc. apply (length_zfill 2); [lia | exact Hc].
Qed.

Lemma compress_group_layout_witness :
  String.length (HexCodec.zfill 6 (HexCodec.hex_digits 200)) = 6%nat
  /\ String.length (HexCodec.zfill 2 (HexCodec.hex_digits 7)) = 2%nat.
Proof.
  destruct compress_group_layout as (_ & _ & _ & H6 & H2).
  split; [apply (H6 200%N) | apply (H2 7%N)]; reflexivity.
Defined.

(** ** Box blur, variant B *)

Section ConvFacts.

Import VimzBlur.

Lemma map_fmap {A B} (f : A -> B) (l : list A) : map f l = f <$> l.
Proof. reflexivity. Qed.

Lemma lookup_total_map_seq {B} `{!Inhabited B} (f : nat -> B) (n r : nat) :
  (r < n)%nat -> map f (seq 0 n) !!! r = f r.
Proof.
  intros Hr. rewrite map_fmap, list_lookup_total_alt, list_lookup_fmap.
  by rewrite lookup_seq_lt.
Qed.

Lemma cell_extend array (h w b r c : nat) :
  (r < h + 2 * b)%nat -> (c < w + 2 * b)%nat ->
  cell (extend array h w b) r c
  = if (b <=? r)%nat && (r <? b + h)%nat && (b <=? c)%nat && (c <? b + w)%nat
    then cell array (r - b) (c - b) else 0.
Proof.
  intros Hr Hc. unfold cell at 1, extend.
  by rewrite !lookup_total_map_seq.
Qed.

Lemma cell_uniform (h w : nat) (x : Z) (r c : nat) :
  (r < h)%nat -> (c < w)%nat -> cell (uniform h w x) r c = x.
Proof.
  intros Hr Hc. unfold cell, uniform.
  by rewrite !lookup_total_replicate_2.
Qed.

Lemma cell_conv2d array kernel weight (i j : nat) :
  (i < length array)%nat -> (j < length (array !!! 0%nat))%nat ->
  cell (conv2d array kernel weight) i j
  = let v := conv_value
               (extend array (length array) (length (array !!! 0%nat))
                       (length kernel / 2))
               kernel (length kernel) (length (kernel !!! 0%nat)) i j / weight in
    if 255 <? v then 255 else if v <? 0 then 0 else v.
Proof.
  intros Hi Hj. unfold cell at 1, conv2d.
  by rewrite !lookup_total_map_seq.
Qed.

Lemma uniform_shape {A} `{!Inhabited A} (h w : nat) (x : A) :
  (0 < h)%nat ->
  length (uniform h w x) = h /\ length (uniform h w x !!! 0%nat) = w.
Proof.
  intros Hh. unfold uniform. rewrite length_replicate.
  by rewrite lookup_total_replicate_2, length_replicate.
Qed.

(** The sum over the 3x3 window of the zero-extended uniform channel. *)
Lemma conv_value_uniform (h w : nat) (x : Z) (i j : nat) :
  (i < h)%nat -> (j < w)%nat ->
  conv_value (extend (uniform h w x) h w 1) ones3 3 3 i j
  = inside h i * inside w j * x.
Proof.
  intros Hi Hj. unfold conv_value. cbn [seq fold_left].
  change (cell ones3 _ _) with 1.
  rewrite !cell_extend by lia.
  unfold inside.
  repeat match goal with
         | |- context [(?a <=? ?b)%nat] =>
             destruct (Nat.leb_spec a b); try lia
         | |- context [(?a <? ?b)%nat] =>
             destruct (Nat.ltb_spec a b); try lia
         end;
    cbn [andb]; rewrite ?cell_uniform by lia; lia.
Qed.

End ConvFacts.

Section BlurUniform.

Import VimzBlur.

(** A cell of the blurred uniform channel: the window holds
    [inside h i * inside w j] copies of the value and zeros. *)
Lemma blur_channel_uniform (h w : nat) (x : Z) (i j : nat) :
  is_u8 x -> (i < h)%nat -> (j < w)%nat ->
  cell (blur_channel (uniform h w x)) i j = inside h i * inside w j * x / 9.
Proof.
  intros Hx Hi Hj. unfold blur_channel.
  destruct (uniform_shape h w x ltac:(lia)) as [Hh Hw].
  rewrite cell_conv2d by (rewrite ?Hh, ?Hw; done).
  rewrite Hh, Hw. change (length ones3) with 3%nat.
  change (length (ones3 !!! 0%nat)) with 3%nat. change (3 / 2)%nat with 1%nat.
  rewrite conv_value_uniform by done. cbv zeta.
  assert (Hin : forall n k, 1 <= inside n k <= 3).
  { intros n k. unfold inside.
    destruct (1 <=? k)%nat, (k + 1 <? n)%nat; lia. }
  pose proof (Hin h i) as Hr. pose proof (Hin w j) as Hc.
  unfold is_u8 in Hx.
  assert (Hp : 1 <= inside h i * inside w j <= 9) by nia.
  assert (Hv : 0 <= inside h i * inside w j * x / 9 <= 255).
  { revert Hp. generalize (inside h i * inside w j). intros p Hp.
    split; [apply Z.div_pos; nia |]. apply Z.div_le_upper_bound; nia. }
  destruct (Z.ltb_spec 255 (inside h i * inside w j * x / 9)); [lia |].
  destruct (Z.ltb_spec (inside h i * inside w j * x / 9) 0); [lia |].
  reflexivity.
Qed.

Lemma inside_interior (h i : nat) :
  (1 <= i)%nat -> (i + 1 < h)%nat -> inside h i = 3.
Proof.
  intros H1 H2. unfold inside.
  destruct (Nat.leb_spec 1 i); [| lia].
  destruct (Nat.ltb_spec (i + 1) h); [| lia]. reflexivity.
Qed.

Lemma channel_uniform (k h w : nat) (px : list Z) :
  channel k (uniform h w px) = uniform h w (px !!! k).
Proof.
  unfold channel, uniform. rewrite !map_fmap. by rewrite !fmap_replicate.
Qed.

Lemma length_conv2d array kernel weight :
  length (conv2d array kernel weight) = length array.
Proof. unfold conv2d. by rewrite length_map, length_seq. Qed.

Lemma length_conv2d_row array kernel weight (i : nat) :
  (i < length array)%nat ->
  length (conv2d array kernel weight !!! i) = length (array !!! 0%nat).
Proof.
  intros Hi. unfold conv2d. rewrite lookup_total_map_seq by done.
  by rewrite length_map, length_seq.
Qed.

(** A cell of [dstack r g b] inside the common extent. *)
Lemma cell_dstack (r g b : list (list Z)) (h w i j : nat) :
  has_shape r h w -> has_shape g h w -> has_shape b h w ->
  (i < h)%nat -> (j < w)%nat ->
  (dstack r g b !!! i) !!! j = [cell r i j; cell g i j; cell b i j].
Proof.
  intros [Hrl Hr] [Hgl Hg] [Hbl Hb] Hi Hj. unfold dstack, cell.
  destruct (lookup_lt_is_Some_2 r i ltac:(lia)) as [rr Err].
  destruct (lookup_lt_is_Some_2 g i ltac:(lia)) as [gg Egg].
  destruct (lookup_lt_is_Some_2 b i ltac:(lia)) as [bb Ebb].
  pose proof (proj1 (Forall_lookup _ _) Hr i rr Err) as Lr.
  pose proof (proj1 (Forall_lookup _ _) Hg i gg Egg) as Lg.
  pose proof (proj1 (Forall_lookup _ _) Hb i bb Ebb) as Lb.
  cbv beta in Lr, Lg, Lb.
  destruct (lookup_lt_is_Some_2 rr j ltac:(lia)) as [x Ex].
  destruct (lookup_lt_is_Some_2 gg j ltac:(lia)) as [y Ey].
  destruct (lookup_lt_is_Some_2 bb j ltac:(lia)) as [z Ez].
  assert (E1 : dstack r g b !! i
               = Some (zip_with (fun x yz => [x; yz.1; yz.2]) rr (zip gg bb))).
  { unfold dstack. rewrite lookup_zip_with, Err. cbn [mbind option_bind].
    rewrite lookup_zip_with, Egg. cbn [mbind option_bind]. by rewrite Ebb. }
  assert (E2 : zip_with (fun x yz => [x; yz.1; yz.2]) rr (zip gg bb) !! j
               = Some [x; y; z]).
  { rewrite lookup_zip_with, Ex. cbn [mbind option_bind].
    rewrite lookup_zip_with, Ey. cbn [mbind option_bind]. by rewrite Ez. }
  rewrite (list_lookup_total_correct _ _ _ E1).
  rewrite (list_lookup_total_correct _ _ _ E2).
  rewrite (list_lookup_total_correct _ _ _ Err),
    (list_lookup_total_correct _ _ _ Egg), (list_lookup_total_correct _ _ _ Ebb).
  by rewrite (list_lookup_total_correct _ _ _ Ex),
    (list_lookup_total_correct _ _ _ Ey), (list_lookup_total_correct _ _ _ Ez).
Qed.

End BlurUniform.

Section BlurUniformImage.

Import VimzBlur.

Lemma blur_channel_shape (h w : nat) (x : Z) :
  (0 < h)%nat -> has_shape (blur_channel (uniform h w x)) h w.
Proof.
  intros Hh. destruct (uniform_shape h w x Hh) as [Hl Hw].
  unfold blur_channel. split.
  - by rewrite length_conv2d.
  - apply Forall_lookup. intros i row Hrow.
    assert (Hi : (i < h)%nat).
    { apply lookup_lt_Some in Hrow. by rewrite length_conv2d, Hl in Hrow. }
    apply list_lookup_total_correct in Hrow. subst row.
    rewrite length_conv2d_row by (by rewrite Hl). exact Hw.
Qed.

(** Every cell of the blurred uniform RGB image. *)
Lemma blur_uniform_cell (h w : nat) (r g b : Z) (i j : nat) :
  is_u8 r -> is_u8 g -> is_u8 b -> (i < h)%nat -> (j < w)%nat ->
  (blur (uniform h w [r; g; b]) !!! i) !!! j
  = [inside h i * inside w j * r / 9;
     inside h i * inside w j * g / 9;
     inside h i * inside w j * b / 9].
Proof.
  intros Hr Hg Hb Hi Hj. unfold blur. rewrite !channel_uniform.
  change ([r; g; b] !!! 0%nat) with r. change ([r; g; b] !!! 1%nat) with g.
  change ([r; g; b] !!! 2%nat) with b.
  rewrite (cell_dstack _ _ _ h w) by (done || (apply blur_channel_shape; lia)).
  by rewrite !blur_channel_uniform.
Qed.

End BlurUniformImage.

(** C6 (as stated): the blur of a uniform image changes its border: on the
    3x3 image of value 9 only the centre keeps its value. *)
Lemma blur_uniform_counterexample :
  VimzBlur.blur (VimzBlur.uniform 3 3 [9; 9; 9])
  = [[[4; 4; 4]; [6; 6; 6]; [4; 4; 4]];
     [[6; 6; 6]; [9; 9; 9]; [6; 6; 6]];
     [[4; 4; 4]; [6; 6; 6]; [4; 4; 4]]]
  /\ VimzBlur.blur (VimzBlur.uniform 3 3 [9; 9; 9])
     <> VimzBlur.uniform 3 3 [9; 9; 9].
Proof. split; [reflexivity | vm_compute; discriminate]. Qed.

(** C6 (amended): the variant B box blur of a uniform RGB image leaves every
    interior cell (not in the first or last row or column) of every channel
    unchanged; a border cell is recomputed with the zero padding and becomes
    [floor(n * value / 9)], [n] being the number of window cells inside the
    image (4 in a corner, 6 on an edge, for an image of at least 2x2). *)
Theorem blur_uniform_interior (h w : nat) (r g b : Z) (i j : nat) :
  is_u8 r -> is_u8 g -> is_u8 b -> (i < h)%nat -> (j < w)%nat ->
  ((1 <= i)%nat -> (i + 1 < h)%nat -> (1 <= j)%nat -> (j + 1 < w)%nat ->
   (VimzBlur.blur (VimzBlur.uniform h w [r; g; b]) !!! i) !!! j = [r; g; b])
  /\ (VimzBlur.blur (VimzBlur.uniform h w [r; g; b]) !!! i) !!! j
     = [VimzBlur.inside h i * VimzBlur.inside w j * r / 9;
        VimzBlur.inside h i * VimzBlur.inside w j * g / 9;
        VimzBlur.inside h i * VimzBlur.inside w j * b / 9].
Proof.
  intros Hr Hg Hb Hi Hj.
  pose proof (blur_uniform_cell h w r g b i j Hr Hg Hb Hi Hj) as Hcell.
  split; [| exact Hcell].
  intros Hi1 Hi2 Hj1 Hj2. rewrite Hcell.
  rewrite (inside_interior h i), (inside_interior w j) by done.
  change (3 * 3) with 9.
  by rewrite !(Z.mul_comm 9), !Z.div_mul.
Qed.

Lemma blur_uniform_interior_witness :
  ((1 <= 1)%nat -> (1 + 1 < 4)%nat -> (1 <= 2)%nat -> (2 + 1 < 5)%nat ->
   (VimzBlur.blur (VimzBlur.uniform 4 5 [200; 17; 255]) !!! 1%nat) !!! 2%nat
   = [200; 17; 255])
  /\ (VimzBlur.blur (VimzBlur.uniform 4 5 [200; 17; 255]) !!! 1%nat) !!! 2%nat
     = [VimzBlur.inside 4 1 * VimzBlur.inside 5 2 * 200 / 9;
        VimzBlur.inside 4 1 * VimzBlur.inside 5 2 * 17 / 9;
        VimzBlur.inside 4 1 * VimzBlur.inside 5 2 * 255 / 9].
Proof.
  apply (blur_uniform_interior 4 5 200 17 255 1 2); unfold is_u8; lia.
Defined.

(** ** Python indexing *)

Lemma Py_clamp255_range v : 0 <= Py.clamp255 v <= 255.
Proof. unfold Py.clamp255. lia. Qed.

Lemma Py_clamp255_id v : 0 <= v <= 255 -> Py.clamp255 v = v.
Proof. unfold Py.clamp255. lia. Qed.

Section Indexing.

Context {A : Type} `{!Inhabited A}.

Lemma index_inside (l : list A) (k : Z) :
  - Z.of_nat (length l) <= k < Z.of_nat (length l) ->
  Py.index l k = Some (l !!! Z.to_nat (Py.wrap (Z.of_nat (length l)) k)).
Proof.
  intros Hk. unfold Py.index, Py.wrap.
  destruct (Z.ltb_spec k 0) as [Hneg | Hpos].
  - destruct (Z.leb_spec 0 k); [lia |]. cbn [andb].
    destruct (Z.leb_spec (- Z.of_nat (length l)) k); [| lia]. cbn [andb].
    apply list_lookup_lookup_total_lt. lia.
  - destruct (Z.leb_spec 0 k); [| lia].
    destruct (Z.ltb_spec k (Z.of_nat (length l))); [| lia]. cbn [andb].
    apply list_lookup_lookup_total_lt. lia.
Qed.

Lemma store_inside (l : list A) (k : Z) (v : A) :
  0 <= k < Z.of_nat (length l) ->
  Py.store l k v = Some (<[Z.to_nat k := v]> l).
Proof.
  intros Hk. unfold Py.store.
  destruct (Z.leb_spec 0 k); [| lia].
  destruct (Z.ltb_spec k (Z.of_nat (length l))); [| lia]. reflexivity.
Qed.

Lemma for_each_cons {S} (body : S -> A -> option S) x l s :
  Py.for_each body (x :: l) s = s' ← body s x; Py.for_each body l s'.
Proof.
  unfold Py.for_each. cbn [fold_left mbind option_bind].
  destruct (body s x) as [s' |]; [reflexivity |].
  cbn [mbind option_bind]. induction l as [|y l IH]; [reflexivity | exact IH].
Qed.

End Indexing.

Section Shapes.

Lemma has_shape_row {A} (m : list (list A)) (h w r : nat) :
  has_shape m h w -> (r < h)%nat -> length (m !!! r) = w.
Proof.
  intros [Hl Hrows] Hr.
  destruct (lookup_lt_is_Some_2 m r ltac:(lia)) as [row Hrow].
  rewrite (list_lookup_total_correct _ _ _ Hrow).
  exact (proj1 (Forall_lookup _ _) Hrows r row Hrow).
Qed.

Lemma has_shape_width {A} (m : list (list A)) (h w : nat) :
  has_shape m h w -> has_shape m h (length (m !!! 0%nat)).
Proof.
  intros Hm. destruct h as [|h].
  - destruct Hm as [Hl _]. apply nil_length_inv in Hl. subst m.
    split; [reflexivity | constructor].
  - by rewrite (has_shape_row m (S h) w 0 Hm ltac:(lia)).
Qed.

Lemma set_cell_shape (m : list (list Z)) (h w r c : nat) v :
  has_shape m h w -> has_shape (set_cell m r c v) h w.
Proof.
  intros [Hl Hrows]. unfold set_cell. split; [by rewrite length_insert |].
  apply Forall_lookup. intros i row Hi.
  destruct (decide (r = i)) as [-> | Hne].
  - destruct (decide (i < length m)%nat) as [Hlt | Hge].
    + rewrite list_lookup_insert_eq in Hi by done. injection Hi as <-.
      rewrite length_insert. apply (has_shape_row m h w); [done | lia].
    + rewrite list_insert_ge in Hi by lia.
      exact (proj1 (Forall_lookup _ _) Hrows i row Hi).
  - rewrite list_lookup_insert_ne in Hi by done.
    exact (proj1 (Forall_lookup _ _) Hrows i row Hi).
Qed.

Lemma cell_set_cell (m : list (list Z)) (h w r c : nat) v (r' c' : nat) :
  has_shape m h w -> (r < h)%nat -> (c < w)%nat ->
  cell (set_cell m r c v) r' c'
  = if decide (r' = r /\ c' = c) then v else cell m r' c'.
Proof.
  intros Hm Hr Hc. pose proof Hm as [Hl _]. unfold cell, set_cell.
  destruct (decide (r' = r)) as [-> | Hne].
  - rewrite list_lookup_total_insert_eq by lia.
    destruct (decide (c' = c)) as [-> | Hnc].
    + rewrite list_lookup_total_insert_eq
        by (rewrite (has_shape_row m h w) by done; lia).
      by rewrite decide_True.
    + rewrite list_lookup_total_insert_ne by done.
      rewrite decide_False by tauto. reflexivity.
  - rewrite list_lookup_total_insert_ne by done.
    rewrite decide_False by tauto. reflexivity.
Qed.

Lemma index2_inside (m : list (list Z)) (h w : nat) (i j : Z) :
  has_shape m h w ->
  - Z.of_nat h <= i < Z.of_nat h -> - Z.of_nat w <= j < Z.of_nat w ->
  Py.index2 m i j
  = Some (cell m (Z.to_nat (Py.wrap (Z.of_nat h) i))
               (Z.to_nat (Py.wrap (Z.of_nat w) j))).
Proof.
  intros Hm Hi Hj. pose proof Hm as [Hl _]. unfold Py.index2.
  rewrite index_inside by lia. cbn [mbind option_bind]. rewrite Hl.
  assert (Hrow : length (m !!! Z.to_nat (Py.wrap (Z.of_nat h) i)) = w).
  { apply (has_shape_row m h w _ Hm). unfold Py.wrap.
    destruct (Z.ltb_spec i 0); lia. }
  rewrite index_inside by (rewrite Hrow; lia). rewrite Hrow. reflexivity.
Qed.

Lemma store2_inside (m : list (list Z)) (h w : nat) (i j : Z) v :
  has_shape m h w ->
  0 <= i < Z.of_nat h -> 0 <= j < Z.of_nat w ->
  Py.store2 m i j v = Some (set_cell m (Z.to_nat i) (Z.to_nat j) v).
Proof.
  intros Hm Hi Hj. pose proof Hm as [Hl _]. unfold Py.store2.
  rewrite index_inside by lia. cbn [mbind option_bind]. rewrite Hl.
  assert (Hw : Py.wrap (Z.of_nat h) i = i).
  { unfold Py.wrap. destruct (Z.ltb_spec i 0); [lia | reflexivity]. }
  rewrite Hw.
  rewrite store_inside by (rewrite (has_shape_row m h w) by (done || lia); lia).
  cbn [mbind option_bind]. rewrite store_inside by lia. reflexivity.
Qed.

End Shapes.

(** ** Box blur, variant A *)

Section BlurLoops.

Import VeritasBlur.

Variables (image_array : list (list Z)) (h w : nat).
Hypothesis image_shape : has_shape image_array h w.

Lemma sum_val_inside (i j : Z) :
  visitable h i -> visitable w j ->
  sum_val image_array i j
  = Some (window_sum image_array (Z.of_nat h) (Z.of_nat w) i j).
Proof.
  intros [Hi0 Hi1] [Hj0 Hj1]. unfold sum_val, window_sum, read.
  rewrite !(index2_inside image_array h w) by (done || lia).
  reflexivity.
Qed.

Lemma set_cell_twice (m : list (list Z)) (r c : nat) (x y : Z) :
  (r < length m)%nat ->
  set_cell (set_cell m r c x) r c y = set_cell m r c y.
Proof.
  intros Hr. unfold set_cell.
  rewrite list_lookup_total_insert_eq by done.
  by rewrite !list_insert_insert_eq.
Qed.

Lemma blur_cell_inside (blurred : list (list Z)) (i j : Z) :
  has_shape blurred h w -> visitable h i -> visitable w j ->
  blur_cell image_array blurred i j
  = Some (set_cell blurred (Z.to_nat i) (Z.to_nat j)
                   (blurred_value image_array (Z.of_nat h) (Z.of_nat w) i j)).
Proof.
  intros Hb Hi Hj. pose proof Hi as [Hi0 Hi1]. pose proof Hj as [Hj0 Hj1].
  unfold blur_cell. rewrite sum_val_inside by done. cbn [mbind option_bind].
  rewrite (store2_inside blurred h w) by (done || lia).
  cbn [mbind option_bind].
  set (x := u8 (Py.round_div _ 9)).
  assert (Hb1 : has_shape (set_cell blurred (Z.to_nat i) (Z.to_nat j) x) h w)
    by (by apply set_cell_shape).
  rewrite (index2_inside _ h w) by (done || lia). cbn [mbind option_bind].
  assert (Hwi : Py.wrap (Z.of_nat h) i = i).
  { unfold Py.wrap. destruct (Z.ltb_spec i 0); [lia | reflexivity]. }
  assert (Hwj : Py.wrap (Z.of_nat w) j = j).
  { unfold Py.wrap. destruct (Z.ltb_spec j 0); [lia | reflexivity]. }
  rewrite Hwi, Hwj.
  rewrite (cell_set_cell blurred h w) by (done || lia).
  rewrite decide_True by done.
  rewrite (store2_inside _ h w) by (done || lia).
  rewrite set_cell_twice by (destruct Hb as [-> _]; lia).
  reflexivity.
Qed.

(** The inner loop over the columns [cols] of row [i]. *)
Lemma blur_row_loop (i : Z) (cols : list Z) :
  visitable h i -> Forall (visitable w) cols ->
  forall blurred, has_shape blurred h w ->
  exists blurred',
    Py.for_each (fun b j => blur_cell image_array b i j) cols blurred
    = Some blurred'
    /\ has_shape blurred' h w
    /\ forall r c : nat, (r < h)%nat -> (c < w)%nat ->
         cell blurred' r c
         = if decide (Z.of_nat r = i /\ Z.of_nat c ∈ cols)
           then blurred_value image_array (Z.of_nat h) (Z.of_nat w) i (Z.of_nat c)
           else cell blurred r c.
Proof.
  intros Hi Hcols. induction Hcols as [|j cols Hj Hcols IH]; intros blurred Hb.
  - exists blurred. split; [reflexivity |]. split; [done |].
    intros r c _ _. rewrite decide_False; [reflexivity |].
    intros [_ Hin]. by apply elem_of_nil in Hin.
  - rewrite for_each_cons, blur_cell_inside by done. cbn [mbind option_bind].
    set (v := blurred_value image_array (Z.of_nat h) (Z.of_nat w) i j).
    destruct (IH _ (set_cell_shape blurred h w (Z.to_nat i) (Z.to_nat j) v Hb))
      as (b' & Hrun & Hshape & Hcells).
    exists b'. split; [exact Hrun |]. split; [exact Hshape |].
    intros r c Hr Hc. rewrite Hcells by done.
    destruct Hi as [Hi0 Hi1]. destruct Hj as [Hj0 Hj1].
    rewrite (cell_set_cell blurred h w) by (done || lia).
    destruct (decide (Z.of_nat r = i /\ Z.of_nat c ∈ cols)) as [[Hri Hin] | Hno].
    + rewrite decide_True; [reflexivity |]. split; [done |].
      apply elem_of_cons. by right.
    + destruct (decide (r = Z.to_nat i /\ c = Z.to_nat j)) as [[-> ->] | Hno'].
      * rewrite decide_True.
        -- by rewrite !Z2Nat.id by lia.
        -- split; [lia |]. apply elem_of_cons. left. lia.
      * rewrite decide_False; [reflexivity |].
        intros [Hri [Hcj | Hin]%elem_of_cons]; [| tauto].
        apply Hno'. split; lia.
Qed.

(** The two nested loops over the rows [rows] and the columns [cols]. *)
Lemma blur_loops (rows cols : list Z) :
  Forall (visitable h) rows -> Forall (visitable w) cols ->
  forall blurred, has_shape blurred h w ->
  exists out,
    Py.for_each
      (fun b i => Py.for_each (fun b' j => blur_cell image_array b' i j) cols b)
      rows blurred
    = Some out
    /\ has_shape out h w
    /\ forall r c : nat, (r < h)%nat -> (c < w)%nat ->
         cell out r c
         = if decide (Z.of_nat r ∈ rows /\ Z.of_nat c ∈ cols)
           then blurred_value image_array (Z.of_nat h) (Z.of_nat w)
                              (Z.of_nat r) (Z.of_nat c)
           else cell blurred r c.
Proof.
  intros Hrows Hcols. induction Hrows as [|i rows Hi Hrows IH]; intros blurred Hb.
  - exists blurred. split; [reflexivity |]. split; [done |].
    intros r c _ _. rewrite decide_False; [reflexivity |].
    intros [Hin _]. by apply elem_of_nil in Hin.
  - rewrite for_each_cons.
    destruct (blur_row_loop i cols Hi Hcols blurred Hb)
      as (b1 & Hrun1 & Hshape1 & Hcells1).
    rewrite Hrun1. cbn [mbind option_bind].
    destruct (IH b1 Hshape1) as (out & Hrun & Hshape & Hcells).
    exists out. split; [exact Hrun |]. split; [exact Hshape |].
    intros r c Hr Hc. rewrite Hcells, Hcells1 by done.
    destruct (decide (Z.of_nat r ∈ rows /\ Z.of_nat c ∈ cols)) as [[Hri Hin] | Hno].
    + rewrite decide_True; [reflexivity |]. split; [| done].
      apply elem_of_cons. by right.
    + destruct (decide (Z.of_nat r = i /\ Z.of_nat c ∈ cols)) as [[Hri Hin] | Hno'].
      * rewrite decide_True.
        -- by rewrite Hri.
        -- split; [| done]. apply elem_of_cons. by left.
      * rewrite decide_False; [reflexivity |].
        intros [[Hri | Hin]%elem_of_cons Hc']; tauto.
Qed.

End BlurLoops.

Section BlurSpec.

Import VeritasBlur.

Lemma range_visitable (n : nat) (a b : Z) :
  0 <= a -> b <= Z.of_nat n - 1 -> Forall (visitable n) (Py.range a b).
Proof.
  intros Ha Hb. apply Forall_forall. intros k Hk.
  apply elem_of_seqZ in Hk. unfold visitable. lia.
Qed.

Lemma elem_of_range (a b k : Z) : k ∈ Py.range a b <-> a <= k < b.
Proof. unfold Py.range. rewrite elem_of_seqZ. lia. Qed.

(** What [apply_blur] returns, cell by cell. *)
Lemma apply_blur_cells (image_array : list (list Z)) (h w : nat)
    (blur_region : option (Z * Z * Z * Z)) :
  has_shape image_array h w -> region_ok blur_region ->
  exists out,
    apply_blur image_array blur_region = Some out
    /\ has_shape out h w
    /\ forall r c : nat, (r < h)%nat -> (c < w)%nat ->
         (in_region (bounds (Z.of_nat h) (Z.of_nat w) blur_region)
                    (Z.of_nat r) (Z.of_nat c) ->
          cell out r c
          = blurred_value image_array (Z.of_nat h) (Z.of_nat w)
                          (Z.of_nat r) (Z.of_nat c))
         /\ (~ in_region (bounds (Z.of_nat h) (Z.of_nat w) blur_region)
                         (Z.of_nat r) (Z.of_nat c) ->
             cell out r c = cell image_array r c).
Proof.
  intros Hshape Hreg.
  pose proof (has_shape_width image_array h w Hshape) as Hshape'.
  pose proof (fun Hh : (0 < h)%nat => has_shape_row image_array h w 0 Hshape Hh)
    as Hwidth.
  revert Hshape' Hwidth. unfold apply_blur, shape.
  generalize (length (image_array !!! 0%nat)). intros w' Hshape' Hwidth.
  assert (Hrun : forall sr sc er ec,
             bounds (Z.of_nat h) (Z.of_nat w') blur_region = (sr, sc, er, ec) ->
             exists out,
               (let '(height, width) := (Z.of_nat (length image_array), Z.of_nat w') in
                let '(start_row, start_col, end_row, end_col) :=
                  bounds height width blur_region in
                Py.for_each
                  (fun blurred i =>
                     Py.for_each (fun blurred0 j => blur_cell image_array blurred0 i j)
                                 (Py.range start_col end_col) blurred)
                  (Py.range start_row end_row) image_array) = Some out
               /\ has_shape out h w'
               /\ forall r c : nat, (r < h)%nat -> (c < w')%nat ->
                    cell out r c
                    = if decide (Z.of_nat r ∈ Py.range sr er
                                 /\ Z.of_nat c ∈ Py.range sc ec)
                      then blurred_value image_array (Z.of_nat h) (Z.of_nat w')
                                         (Z.of_nat r) (Z.of_nat c)
                      else cell image_array r c).
  { intros sr sc er ec Hb.
    destruct Hshape as [Hlen _]. rewrite Hlen. rewrite Hb.
    apply (blur_loops image_array h w' Hshape').
    - apply range_visitable;
        destruct blur_region as [[[[? ?] ?] ?] |]; cbn in Hb, Hreg;
        injection Hb as <- <- <- <-; lia.
    - apply range_visitable;
        destruct blur_region as [[[[? ?] ?] ?] |]; cbn in Hb, Hreg;
        injection Hb as <- <- <- <-; lia.
    - exact Hshape'. }
  destruct (bounds (Z.of_nat h) (Z.of_nat w') blur_region)
    as [[[sr sc] er] ec] eqn:Hb.
  destruct (Hrun sr sc er ec eq_refl) as (out & Hout & Hos & Hcells).
  exists out. split; [exact Hout |].
  destruct h as [|h'].
  - split; [| intros r c Hr; lia].
    destruct Hos as [Hl _]. apply nil_length_inv in Hl. subst out.
    split; [reflexivity | constructor].
  - assert (Hw : w' = w) by (apply Hwidth; lia).
    clear Hwidth. subst w'. split; [exact Hos |].
    intros r c Hr Hc. rewrite Hcells by done. rewrite Hb. cbn [in_region].
    destruct (decide (Z.of_nat r ∈ Py.range sr er /\ Z.of_nat c ∈ Py.range sc ec))
      as [Hin | Hout']; rewrite !elem_of_range in *; tauto.
Qed.

(** With 8-bit inputs the stored value is the rounded mean itself. *)
Lemma round_div_9_bounds (s : Z) :
  0 <= s <= 9 * 255 -> 0 <= Py.round_div s 9 <= 255.
Proof.
  intros Hs. unfold Py.round_div.
  pose proof (Z.mod_pos_bound s 9 ltac:(lia)) as Hm.
  pose proof (Z.div_mod s 9 ltac:(lia)) as Hd.
  destruct (2 * (s mod 9) <? 9) eqn:E1; [lia |].
  destruct (9 <? 2 * (s mod 9)) eqn:E2; [lia |].
  apply Z.ltb_ge in E1, E2. lia.
Qed.

End BlurSpec.

Section BlurValues.

Import VeritasBlur.

Lemma cell_u8 (m : list (list Z)) (h w r c : nat) :
  has_shape m h w -> all_u8 m -> (r < h)%nat -> (c < w)%nat -> is_u8 (cell m r c).
Proof.
  intros Hm Hu Hr Hc. pose proof Hm as [Hl _]. unfold cell.
  destruct (lookup_lt_is_Some_2 m r ltac:(lia)) as [row Hrow].
  pose proof (has_shape_row m h w r Hm Hr) as Hlen.
  rewrite (list_lookup_total_correct _ _ _ Hrow) in *.
  destruct (lookup_lt_is_Some_2 row c ltac:(lia)) as [x Hx].
  rewrite (list_lookup_total_correct _ _ _ Hx).
  pose proof (proj1 (Forall_lookup _ _) Hu r row Hrow) as Hrow_u8.
  exact (proj1 (Forall_lookup _ _) Hrow_u8 c x Hx).
Qed.

Lemma read_u8 (m : list (list Z)) (h w : nat) (i j : Z) :
  has_shape m h w -> all_u8 m ->
  - Z.of_nat h <= i < Z.of_nat h -> - Z.of_nat w <= j < Z.of_nat w ->
  is_u8 (read m (Z.of_nat h) (Z.of_nat w) i j).
Proof.
  intros Hm Hu Hi Hj. unfold read.
  apply (cell_u8 m h w); try done; unfold Py.wrap.
  - destruct (Z.ltb_spec i 0); lia.
  - destruct (Z.ltb_spec j 0); lia.
Qed.

Lemma blurred_value_u8 (m : list (list Z)) (h w : nat) (i j : Z) :
  has_shape m h w -> all_u8 m -> visitable h i -> visitable w j ->
  blurred_value m (Z.of_nat h) (Z.of_nat w) i j
  = Py.round_div (window_sum m (Z.of_nat h) (Z.of_nat w) i j) 9
  /\ is_u8 (blurred_value m (Z.of_nat h) (Z.of_nat w) i j).
Proof.
  intros Hm Hu [Hi0 Hi1] [Hj0 Hj1].
  assert (Hs : 0 <= window_sum m (Z.of_nat h) (Z.of_nat w) i j <= 9 * 255).
  { unfold window_sum.
    pose proof (fun a b Ha Hb => read_u8 m h w a b Hm Hu Ha Hb) as R.
    unfold is_u8 in R.
    pose proof (R (i - 1) (j - 1) ltac:(lia) ltac:(lia)).
    pose proof (R (i - 1) j ltac:(lia) ltac:(lia)).
    pose proof (R (i - 1) (j + 1) ltac:(lia) ltac:(lia)).
    pose proof (R i (j - 1) ltac:(lia) ltac:(lia)).
    pose proof (R i j ltac:(lia) ltac:(lia)).
    pose proof (R i (j + 1) ltac:(lia) ltac:(lia)).
    pose proof (R (i + 1) (j - 1) ltac:(lia) ltac:(lia)).
    pose proof (R (i + 1) j ltac:(lia) ltac:(lia)).
    pose proof (R (i + 1) (j + 1) ltac:(lia) ltac:(lia)).
    lia. }
  pose proof (round_div_9_bounds _ Hs) as Hr.
  unfold blurred_value, u8, is_u8.
  rewrite (Z.mod_small (Py.round_div _ 9)) by lia.
  rewrite Py_clamp255_id by exact Hr.
  rewrite Z.mod_small by lia. split; [reflexivity | exact Hr].
Qed.

End BlurValues.

(** C7: with the region [None] the first and last row and column of the
    output equal the input, and with an explicit region (starting at
    non-negative coordinates) every cell outside the rows
    [start_row .. end_row - 1] and columns [start_col .. end_col - 1] the
    loops visit keeps the input value. *)
Theorem apply_blur_frame (image_array : list (list Z)) (h w : nat)
    (blur_region : option (Z * Z * Z * Z)) :
  has_shape image_array h w ->
  VeritasBlur.region_ok blur_region ->
  exists out,
    VeritasBlur.apply_blur image_array blur_region = Some out
    /\ has_shape out h w
    /\ (forall r c : nat, (r < h)%nat -> (c < w)%nat ->
          ~ VeritasBlur.in_region
              (VeritasBlur.bounds (Z.of_nat h) (Z.of_nat w) blur_region)
              (Z.of_nat r) (Z.of_nat c) ->
          cell out r c = cell image_array r c)
    /\ (blur_region = None ->
        forall r c : nat, (r < h)%nat -> (c < w)%nat ->
          (r = 0 \/ r = h - 1 \/ c = 0 \/ c = w - 1)%nat ->
          cell out r c = cell image_array r c).
Proof.
  intros Hshape Hreg.
  destruct (apply_blur_cells image_array h w blur_region Hshape Hreg)
    as (out & Hrun & Hos & Hcells).
  exists out. split; [exact Hrun |]. split; [exact Hos |]. split.
  - intros r c Hr Hc Hout. by apply (Hcells r c Hr Hc).
  - intros -> r c Hr Hc Hborder. apply (Hcells r c Hr Hc).
    cbn [VeritasBlur.bounds VeritasBlur.in_region]. lia.
Qed.

Lemma apply_blur_frame_witness :
  exists out,
    VeritasBlur.apply_blur VeritasBlur.sample (Some (1, 2, 5, 1)) = Some out
    /\ has_shape out 4 4
    /\ (forall r c : nat, (r < 4)%nat -> (c < 4)%nat ->
          ~ VeritasBlur.in_region
              (VeritasBlur.bounds (Z.of_nat 4) (Z.of_nat 4) (Some (1, 2, 5, 1)))
              (Z.of_nat r) (Z.of_nat c) ->
          cell out r c = cell VeritasBlur.sample r c)
    /\ (Some (1, 2, 5, 1) = None ->
        forall r c : nat, (r < 4)%nat -> (c < 4)%nat ->
          (r = 0 \/ r = 4 - 1 \/ c = 0 \/ c = 4 - 1)%nat ->
          cell out r c = cell VeritasBlur.sample r c).
Proof.
  apply (apply_blur_frame VeritasBlur.sample 4 4 (Some (1, 2, 5, 1))).
  - split; [reflexivity | repeat constructor].
  - cbn. lia.
Defined.

(** C10: an explicit region that starts in row 0 or column 0 (at
    non-negative coordinates) raises no indexing error: [apply_blur] returns
    an image, in which every cell of the region holds the rounded mean of the
    nine cells read around it, the index [-1] reading the last row
    (respectively the last column) of the unmodified input. *)
Theorem apply_blur_wraps_at_zero (image_array : list (list Z)) (h w : nat)
    (start_row start_col blur_h blur_w : Z) :
  has_shape image_array h w -> all_u8 image_array ->
  0 <= start_row -> 0 <= start_col -> start_row = 0 \/ start_col = 0 ->
  exists out,
    VeritasBlur.apply_blur image_array
      (Some (start_row, start_col, blur_h, blur_w)) = Some out
    /\ forall r c : nat, (r < h)%nat -> (c < w)%nat ->
         VeritasBlur.in_region
           (VeritasBlur.bounds (Z.of_nat h) (Z.of_nat w)
              (Some (start_row, start_col, blur_h, blur_w)))
           (Z.of_nat r) (Z.of_nat c) ->
         cell out r c
         = Py.round_div
             (VeritasBlur.window_sum image_array (Z.of_nat h) (Z.of_nat w)
                (Z.of_nat r) (Z.of_nat c)) 9
         /\ (r = 0%nat -> forall j,
               VeritasBlur.read image_array (Z.of_nat h) (Z.of_nat w)
                 (Z.of_nat r - 1) j
               = VeritasBlur.read image_array (Z.of_nat h) (Z.of_nat w)
                   (Z.of_nat h - 1) j)
         /\ (c = 0%nat -> forall i,
               VeritasBlur.read image_array (Z.of_nat h) (Z.of_nat w)
                 i (Z.of_nat c - 1)
               = VeritasBlur.read image_array (Z.of_nat h) (Z.of_nat w)
                   i (Z.of_nat w - 1)).
Proof.
  intros Hshape Hu Hsr Hsc _.
  destruct (apply_blur_cells image_array h w
              (Some (start_row, start_col, blur_h, blur_w)) Hshape)
    as (out & Hrun & Hos & Hcells); [cbn; lia |].
  exists out. split; [exact Hrun |].
  intros r c Hr Hc Hin. split.
  - rewrite (proj1 (Hcells r c Hr Hc) Hin).
    cbn [VeritasBlur.bounds VeritasBlur.in_region] in Hin.
    apply blurred_value_u8; try done; unfold VeritasBlur.visitable; lia.
  - split.
    + intros -> j. unfold VeritasBlur.read, Py.wrap.
      destruct (Z.ltb_spec (Z.of_nat 0 - 1) 0); [| lia].
      destruct (Z.ltb_spec (Z.of_nat h - 1) 0); [lia |].
      repeat f_equal; lia.
    + intros -> i. unfold VeritasBlur.read, Py.wrap.
      destruct (Z.ltb_spec (Z.of_nat 0 - 1) 0); [| lia].
      destruct (Z.ltb_spec (Z.of_nat w - 1) 0); [lia |].
      repeat f_equal; lia.
Qed.

Lemma apply_blur_wraps_at_zero_witness :
  exists out,
    VeritasBlur.apply_blur VeritasBlur.sample (Some (0, 0, 2, 2)) = Some out
    /\ forall r c : nat, (r < 4)%nat -> (c < 4)%nat ->
         VeritasBlur.in_region
           (VeritasBlur.bounds (Z.of_nat 4) (Z.of_nat 4) (Some (0, 0, 2, 2)))
           (Z.of_nat r) (Z.of_nat c) ->
         cell out r c
         = Py.round_div
             (VeritasBlur.window_sum VeritasBlur.sample (Z.of_nat 4) (Z.of_nat 4)
                (Z.of_nat r) (Z.of_nat c)) 9
         /\ (r = 0%nat -> forall j,
               VeritasBlur.read VeritasBlur.sample (Z.of_nat 4) (Z.of_nat 4)
                 (Z.of_nat r - 1) j
               = VeritasBlur.read VeritasBlur.sample (Z.of_nat 4) (Z.of_nat 4)
                   (Z.of_nat 4 - 1) j)
         /\ (c = 0%nat -> forall i,
               VeritasBlur.read VeritasBlur.sample (Z.of_nat 4) (Z.of_nat 4)
                 i (Z.of_nat c - 1)
               = VeritasBlur.read VeritasBlur.sample (Z.of_nat 4) (Z.of_nat 4)
                   i (Z.of_nat 4 - 1)).
Proof.
  apply (apply_blur_wraps_at_zero VeritasBlur.sample 4 4 0 0 2 2).
  - split; [reflexivity | repeat constructor].
  - unfold all_u8, is_u8, VeritasBlur.sample. repeat (constructor; try lia).
  - lia.
  - lia.
  - left. reflexivity.
Defined.

(** ** Resize, variant A *)

Section ResizeDegenerate.

Import VeritasResize.

Lemma mapM_constant {A B} (f : A -> option B) (l : list A) (y : B) :
  Forall (fun x => f x = Some y) l -> mapM f l = Some (replicate (length l) y).
Proof.
  intros Hl. apply mapM_Some.
  induction Hl as [|x l Hx _ IH]; cbn [length replicate]; by constructor.
Qed.

Lemma quot_inside (n m k : Z) :
  0 < n -> 1 < m -> 0 <= k < m -> 0 <= Z.quot ((n - 1) * k) (m - 1) <= n - 1.
Proof.
  intros Hn Hm Hk. rewrite Z.quot_div_nonneg by nia.
  split; [apply Z.div_pos; nia |].
  apply Z.div_le_upper_bound; nia.
Qed.

(** With a target extent of 1 the weighted sum is 0 and [denom] is 1: the
    cell is 0, and the fallback mean is never computed. *)
Lemma resize_cell_degenerate (image_array : list (list Z)) (h w : nat)
    (new_height new_width i j : Z) :
  has_shape image_array h w -> (0 < h)%nat -> (0 < w)%nat ->
  new_height = 1 \/ new_width = 1 ->
  0 <= i < new_height -> 0 <= j < new_width ->
  resize_cell image_array (Z.of_nat h) (Z.of_nat w) new_height new_width i j
  = Some 0.
Proof.
  intros Hshape Hh Hw Hone Hi Hj. unfold resize_cell.
  set (x_l := if 1 <? new_width then Z.quot _ _ else 0).
  set (y_l := if 1 <? new_height then Z.quot _ _ else 0).
  set (x_h := if x_l * _ =? _ then x_l else _).
  set (y_h := if y_l * _ =? _ then y_l else _).
  assert (Hxl : 0 <= x_l <= Z.of_nat w - 1).
  { subst x_l. destruct (Z.ltb_spec 1 new_width); [apply quot_inside; lia | lia]. }
  assert (Hyl : 0 <= y_l <= Z.of_nat h - 1).
  { subst y_l. destruct (Z.ltb_spec 1 new_height); [apply quot_inside; lia | lia]. }
  clearbody x_l y_l.
  assert (Hxh : 0 <= x_h <= Z.of_nat w - 1).
  { subst x_h. destruct (x_l * _ =? _); lia. }
  assert (Hyh : 0 <= y_h <= Z.of_nat h - 1).
  { subst y_h. destruct (y_l * _ =? _); lia. }
  clearbody x_h y_h.
  rewrite !(index2_inside image_array h w) by (done || lia).
  cbn [mbind option_bind].
  destruct Hone as [-> | ->].
  - assert (i = 0) as -> by lia.
    change (1 <? 1) with false. rewrite andb_false_r. cbv iota.
    change (0 <? 1) with true. cbv iota.
    match goal with
    | |- Some (Py.clamp255 (Py.round_div ?s 1)) = _ =>
        replace s with 0 by ring
    end.
    reflexivity.
  - assert (j = 0) as -> by lia.
    change (1 <? 1) with false. cbn [andb]. cbv iota.
    change (0 <? 1) with true. cbv iota.
    match goal with
    | |- Some (Py.clamp255 (Py.round_div ?s 1)) = _ =>
        replace s with 0 by ring
    end.
    reflexivity.
Qed.

End ResizeDegenerate.

(** C3: for a non-empty source and a target with an extent equal to 1 the
    variant A resize raises no error, but every output cell is 0: [denom] is
    set to 1, the weighted sum is 0 and the branch that would take the mean
    of the four corners is never reached.  The claim's unweighted mean fails
    already for a uniform source of value 100 resized to 1x1. *)
Theorem resize_degenerate_zero (image_array : list (list Z)) (h w : nat)
    (new_height new_width : Z) :
  has_shape image_array h w -> (0 < h)%nat -> (0 < w)%nat ->
  0 <= new_height -> 0 <= new_width ->
  new_height = 1 \/ new_width = 1 ->
  VeritasResize.resize_image_bilinear image_array new_height new_width
  = Some (replicate (Z.to_nat new_height) (replicate (Z.to_nat new_width) 0)).
Proof.
  intros Hshape Hh Hw Hnh Hnw Hone.
  unfold VeritasResize.resize_image_bilinear, VeritasResize.shape.
  pose proof (has_shape_row image_array h w 0 Hshape Hh) as Hwidth.
  destruct Hshape as [Hlen Hrows]. rewrite Hlen, Hwidth.
  destruct (Z.ltb_spec new_height 0); [lia |].
  destruct (Z.ltb_spec new_width 0); [lia |]. cbn [orb].
  assert (Hrow : forall i, 0 <= i < new_height ->
            mapM (fun j => VeritasResize.resize_cell image_array (Z.of_nat h)
                             (Z.of_nat w) new_height new_width i j)
                 (Py.range 0 new_width)
            = Some (replicate (Z.to_nat new_width) 0)).
  { intros i Hi.
    rewrite (mapM_constant _ _ 0).
    - unfold Py.range. rewrite length_seqZ. do 2 f_equal. lia.
    - apply Forall_forall. intros j Hj. apply elem_of_range in Hj.
      by apply (resize_cell_degenerate image_array h w). }
  rewrite (mapM_constant _ _ (replicate (Z.to_nat new_width) 0)).
  - unfold Py.range. rewrite length_seqZ. do 2 f_equal. lia.
  - apply Forall_forall. intros i Hi. apply elem_of_range in Hi. by apply Hrow.
Qed.

Lemma resize_degenerate_zero_witness :
  VeritasResize.resize_image_bilinear [[100; 100]; [100; 100]] 1 1
  = Some (replicate (Z.to_nat 1) (replicate (Z.to_nat 1) 0))
  /\ VeritasResize.corner_mean 100 100 100 100 = 100.
Proof.
  split; [| reflexivity].
  apply (resize_degenerate_zero [[100; 100]; [100; 100]] 2 2 1 1).
  - split; [reflexivity | repeat constructor].
  - lia.
  - lia.
  - lia.
  - lia.
  - left. reflexivity.
Defined.

(** ** The factor field of the brightness and contrast envelopes *)

Section FactorField.

Lemma trunc_mag_floor (m : positive) (e : Z) :
  e < 0 ->
  0 <= F64.trunc_mag m e
  /\ F64.trunc_mag m e * 2 ^ (- e) <= Z.pos m < (F64.trunc_mag m e + 1) * 2 ^ (- e).
Proof.
  intros He. unfold F64.trunc_mag.
  destruct (Z.leb_spec 0 e); [lia |].
  assert (Hp : 0 < 2 ^ (- e)) by (apply Z.pow_pos_nonneg; lia).
  pose proof (Z.div_mod (Z.pos m) (2 ^ (- e)) ltac:(lia)) as Hd.
  pose proof (Z.mod_pos_bound (Z.pos m) (2 ^ (- e)) Hp) as Hm.
  split; [apply Z.div_pos; lia | nia].
Qed.

Lemma brightness_factor_field image f :
  VimzBrightness.factor <$> VimzBrightness.main image f
  = F64.to_int (F64.mul f (F64.of_int 10)).
Proof.
  unfold VimzBrightness.main.
  by destruct (F64.to_int (F64.mul f (F64.of_int 10))).
Qed.

Lemma contrast_factor_field image f :
  VimzContrast.factor <$> VimzContrast.main image f
  = VimzContrast.adjust_contrast_and_compress image f
    ≫= fun _ => F64.to_int (F64.mul f (F64.of_int 10)).
Proof.
  unfold VimzContrast.main.
  destruct (VimzContrast.adjust_contrast_and_compress image f); [| reflexivity].
  cbn [mbind option_bind].
  by destruct (F64.to_int (F64.mul f (F64.of_int 10))).
Qed.

End FactorField.

(** C8 (as stated): for the factor 1.375 the envelopes hold 13, whereas
    [round(1.375 * 10)] is 14. *)
Lemma factor_field_round_counterexample :
  VimzBrightness.factor
    <$> VimzBrightness.main [[HexCodec.Rgb 10 20 30]] (F64.dyadic 11 (-3))
  = Some 13
  /\ VimzContrast.factor
       <$> VimzContrast.main [[HexCodec.Rgb 10 20 30]] (F64.dyadic 11 (-3))
     = Some 13
  /\ F64.round (F64.mul (F64.dyadic 11 (-3)) (F64.of_int 10)) = Some 14.
Proof. repeat split; vm_compute; reflexivity. Qed.

(** C8 (amended): the brightness and contrast envelopes surface the factor
    as [int(factor * 10)], the binary64 product truncated towards zero (not
    rounded): 15 for the default factor 1.5, 13 for 1.375. *)
Theorem factor_field_truncates :
  (forall image f,
      VimzBrightness.factor <$> VimzBrightness.main image f
      = F64.to_int (F64.mul f (F64.of_int 10)))
  /\ (forall image f,
         VimzContrast.factor <$> VimzContrast.main image f
         = VimzContrast.adjust_contrast_and_compress image f
           ≫= fun _ => F64.to_int (F64.mul f (F64.of_int 10)))
  /\ (forall (s : bool) (m : positive) (e : Z),
         e < 0 ->
         exists t,
           F64.to_int (S754_finite s m e) = Some (if s then - t else t)
           /\ 0 <= t
           /\ t * 2 ^ (- e) <= Z.pos m < (t + 1) * 2 ^ (- e))
  /\ F64.to_int (F64.mul (F64.dyadic 3 (-1)) (F64.of_int 10)) = Some 15
  /\ F64.to_int (F64.mul (F64.dyadic 11 (-3)) (F64.of_int 10)) = Some 13.
Proof.
  split; [exact brightness_factor_field |].
  split; [exact contrast_factor_field |].
  split; [| split; vm_compute; reflexivity].
  intros s m e He. exists (F64.trunc_mag m e).
  split; [reflexivity |]. by apply trunc_mag_floor.
Qed.

Lemma factor_field_truncates_witness :
  exists t,
    F64.to_int (S754_finite false 7740561859543040 (-49)) = Some t
    /\ 0 <= t
    /\ t * 2 ^ (- (-49)) <= 7740561859543040 < (t + 1) * 2 ^ (- (-49)).
Proof.
  destruct factor_field_truncates as (_ & _ & Htrunc & _).
  apply (Htrunc false 7740561859543040%positive (-49)). lia.
Defined.

(** ** The clamp invariant *)

Section ClipFacts.

Lemma of_int_0 : F64.of_int 0 = S754_zero false.
Proof. reflexivity. Qed.

Lemma of_int_255 : F64.of_int 255 = S754_finite false 8972014882652160 (-45).
Proof. vm_compute. reflexivity. Qed.

(** A positive finite float that is not above 255 has an integer part of at
    most 255. *)
Lemma trunc_mag_le_255 (m : positive) (e : Z) :
  F64.ltb (S754_finite false 8972014882652160 (-45)) (S754_finite false m e)
  = false ->
  0 <= F64.trunc_mag m e <= 255.
Proof.
  unfold F64.ltb, F64.numerator, F64.exponent. intros Hle.
  apply Z.ltb_ge in Hle.
  assert (H45 : 8972014882652160 = 255 * 2 ^ 45) by reflexivity.
  rewrite H45 in Hle. unfold F64.trunc_mag.
  destruct (Z.leb_spec 0 e) as [He | He].
  - rewrite Z.min_l in Hle by lia.
    replace (-45 - -45) with 0 in Hle by lia.
    replace (e - -45) with (e + 45) in Hle by lia.
    rewrite Z.pow_add_r in Hle by lia.
    assert (0 < 2 ^ e) by (apply Z.pow_pos_nonneg; lia).
    assert (0 < 2 ^ 45) by reflexivity.
    change (2 ^ 0) with 1 in Hle. nia.
  - assert (Hp : 0 < 2 ^ (- e)) by (apply Z.pow_pos_nonneg; lia).
    split; [apply Z.div_pos; lia |].
    apply Z.div_le_upper_bound; [exact Hp |].
    destruct (Z.le_ge_cases (-45) e) as [Hge | Hlt].
    + rewrite Z.min_l in Hle by lia.
      replace (-45 - -45) with 0 in Hle by lia. change (2 ^ 0) with 1 in Hle.
      assert (Hsplit : 2 ^ 45 = 2 ^ (e - -45) * 2 ^ (- e)).
      { rewrite <- Z.pow_add_r by lia. f_equal. lia. }
      assert (0 < 2 ^ (e - -45)) by (apply Z.pow_pos_nonneg; lia).
      rewrite Hsplit in Hle. nia.
    + rewrite Z.min_r in Hle by lia.
      replace (e - e) with 0 in Hle by lia. change (2 ^ 0) with 1 in Hle.
      assert (Hsplit : 2 ^ (- e) = 2 ^ 45 * 2 ^ (-45 - e)).
      { rewrite <- Z.pow_add_r by lia. f_equal. lia. }
      rewrite Hsplit. nia.
Qed.

(** After [clip(., 0, 255)] the integer part lies in [0, 255]; only a NaN
    has none. *)
Lemma clip_to_int_range (x : spec_float) :
  match F64.to_int (F64.clip x (F64.of_int 0) (F64.of_int 255)) with
  | Some t => 0 <= t <= 255
  | None => x = S754_nan
  end.
Proof.
  rewrite of_int_0, of_int_255.
  destruct x as [s | s | | s m e]; unfold F64.clip.
  - destruct s; vm_compute; split; discriminate.
  - destruct s; vm_compute; split; discriminate.
  - reflexivity.
  - destruct s.
    + assert (Hneg : F64.ltb (S754_finite true m e) (S754_zero false) = true).
      { unfold F64.ltb, F64.numerator, F64.exponent.
        apply Z.ltb_lt.
        assert (0 < 2 ^ (e - Z.min e 0)) by (apply Z.pow_pos_nonneg; lia).
        nia. }
      rewrite Hneg. vm_compute. split; discriminate.
    + assert (Hpos : F64.ltb (S754_finite false m e) (S754_zero false) = false).
      { unfold F64.ltb, F64.numerator, F64.exponent.
        apply Z.ltb_ge.
        assert (0 < 2 ^ (e - Z.min e 0)) by (apply Z.pow_pos_nonneg; lia).
        nia. }
      rewrite Hpos.
      destruct (F64.ltb (S754_finite false 8972014882652160 (-45))
                        (S754_finite false m e)) eqn:Hhi.
      * vm_compute. split; discriminate.
      * cbn [F64.to_int]. by apply trunc_mag_le_255.
Qed.

Lemma to_u8_clip (x : spec_float) :
  is_u8 (F64.to_u8 (F64.clip x (F64.of_int 0) (F64.of_int 255)))
  /\ (x <> S754_nan ->
      F64.to_int (F64.clip x (F64.of_int 0) (F64.of_int 255))
      = Some (F64.to_u8 (F64.clip x (F64.of_int 0) (F64.of_int 255)))).
Proof.
  pose proof (clip_to_int_range x) as H. unfold F64.to_u8, is_u8.
  destruct (F64.to_int (F64.clip x (F64.of_int 0) (F64.of_int 255))) as [t |].
  - rewrite Z.mod_small by lia. split; [lia | reflexivity].
  - split; [lia | intros Hx; contradiction].
Qed.

Lemma to_u8_range (x : spec_float) : is_u8 (F64.to_u8 x).
Proof.
  unfold F64.to_u8, is_u8. destruct (F64.to_int x) as [t |]; [| lia].
  pose proof (Z.mod_pos_bound t 256 ltac:(lia)). lia.
Qed.

End ClipFacts.

Section KernelRanges.

Lemma mapM_Forall {A B} (f : A -> option B) (P : B -> Prop) (l : list A) k :
  (forall x y, f x = Some y -> P y) -> mapM f l = Some k -> Forall P k.
Proof.
  intros Hf Hk. apply mapM_Some_1 in Hk.
  induction Hk as [|x y l k Hxy _ IH]; constructor; eauto.
Qed.

Lemma for_each_invariant {A S} (body : S -> A -> option S) (P : S -> Prop)
    (l : list A) :
  (forall s x s', body s x = Some s' -> P s -> P s') ->
  forall s s', Py.for_each body l s = Some s' -> P s -> P s'.
Proof.
  intros Hbody. induction l as [|x l IH]; intros s s' Hrun Hs.
  - by injection Hrun as <-.
  - rewrite for_each_cons in Hrun.
    destruct (body s x) as [s1 |] eqn:Hstep; [| discriminate Hrun].
    cbn [mbind option_bind] in Hrun. eauto.
Qed.

(** Resize, variant A: the value stored is clamped. *)
Lemma resize_a_range image_array new_height new_width out :
  VeritasResize.resize_image_bilinear image_array new_height new_width = Some out ->
  all_u8 out.
Proof.
  unfold VeritasResize.resize_image_bilinear, VeritasResize.shape.
  destruct ((new_height <? 0) || (new_width <? 0));
    [intros Hrun; discriminate Hrun |].
  apply mapM_Forall. intros i row. apply mapM_Forall. intros j v.
  unfold VeritasResize.resize_cell. intros Hv. cbv zeta in Hv.
  repeat match type of Hv with
         | (?m ≫= _) = Some _ =>
             destruct m; [cbn [mbind option_bind] in Hv | discriminate Hv]
         end.
  injection Hv as <-. apply Py_clamp255_range.
Qed.

(** Resize, variant B: the value is converted to [uint8] by the store. *)
Lemma blend_range wa wb wc wd a b c d :
  Forall is_u8 (VimzResize.blend wa wb wc wd a b c d).
Proof.
  unfold VimzResize.blend. rewrite map_fmap. apply Forall_fmap.
  apply Forall_forall. intros x _. apply to_u8_range.
Qed.

Lemma resize_b_range image_array new_height new_width out :
  VimzResize.resize_image image_array new_height new_width = Some out ->
  Forall (Forall (Forall is_u8)) out.
Proof.
  unfold VimzResize.resize_image. cbv zeta. intros Hrun.
  destruct (F64.py_div (F64.of_int (Z.of_nat (length (image_array !!! 0%nat)))) _)
    as [x_ratio |]; cbn [mbind option_bind] in Hrun; [| discriminate Hrun].
  destruct (F64.py_div _ _) as [y_ratio |];
    cbn [mbind option_bind] in Hrun; [| discriminate Hrun].
  destruct ((new_height <? 0) || (new_width <? 0)); [discriminate Hrun |].
  revert Hrun. apply mapM_Forall. intros i row. apply mapM_Forall. intros j v.
  unfold VimzResize.resize_cell. intros Hv. cbv zeta in Hv.
  repeat match type of Hv with
         | (?m ≫= _) = Some _ =>
             destruct m; [cbn [mbind option_bind] in Hv | discriminate Hv]
         end.
  destruct (_ =? 720); injection Hv as <-; apply blend_range.
Qed.

(** Box blur, variant A: a store keeps the buffer within eight bits. *)
Lemma index_Forall {A} (P : A -> Prop) (l : list A) i x :
  Py.index l i = Some x -> Forall P l -> P x.
Proof.
  unfold Py.index. intros Hx Hl.
  destruct ((0 <=? i) && (i <? Z.of_nat (length l)));
    [by eapply Forall_lookup_1 |].
  destruct ((- Z.of_nat (length l) <=? i) && (i <? 0));
    [by eapply Forall_lookup_1 | discriminate].
Qed.

Lemma store_Forall {A} (P : A -> Prop) (l : list A) i v l' :
  Py.store l i v = Some l' -> Forall P l -> P v -> Forall P l'.
Proof.
  unfold Py.store. intros Hs Hl Hv.
  destruct ((0 <=? i) && (i <? Z.of_nat (length l)));
    [injection Hs as <-; by apply Forall_insert |].
  destruct ((- Z.of_nat (length l) <=? i) && (i <? 0));
    [injection Hs as <-; by apply Forall_insert | discriminate].
Qed.

Lemma store2_u8 (m : list (list Z)) i j v m' :
  Py.store2 m i j v = Some m' -> all_u8 m -> is_u8 v -> all_u8 m'.
Proof.
  unfold Py.store2. intros Hs Hm Hv.
  destruct (Py.index m i) as [row |] eqn:Hrow; [| discriminate].
  cbn [mbind option_bind] in Hs.
  destruct (Py.store row j v) as [row' |] eqn:Hrow'; [| discriminate].
  cbn [mbind option_bind] in Hs.
  eapply (store_Forall (Forall is_u8)); [exact Hs | exact Hm |].
  eapply store_Forall; [exact Hrow' | | exact Hv].
  by eapply (index_Forall (Forall is_u8)).
Qed.

Lemma u8_range x : is_u8 (VeritasBlur.u8 x).
Proof.
  unfold VeritasBlur.u8, is_u8. pose proof (Z.mod_pos_bound x 256 ltac:(lia)). lia.
Qed.

Lemma blur_cell_u8 image_array blurred i j blurred' :
  VeritasBlur.blur_cell image_array blurred i j = Some blurred' ->
  all_u8 blurred -> all_u8 blurred'.
Proof.
  unfold VeritasBlur.blur_cell. intros Hc Hb.
  destruct (VeritasBlur.sum_val image_array i j) as [s |]; [| discriminate].
  cbn [mbind option_bind] in Hc.
  destruct (Py.store2 blurred i j _) as [b1 |] eqn:Hb1; [| discriminate].
  cbn [mbind option_bind] in Hc.
  destruct (Py.index2 b1 i j) as [v |]; [| discriminate].
  cbn [mbind option_bind] in Hc.
  eapply store2_u8; [exact Hc | | apply u8_range].
  eapply store2_u8; [exact Hb1 | exact Hb | apply u8_range].
Qed.

Lemma blur_a_range image_array blur_region out :
  all_u8 image_array ->
  VeritasBlur.apply_blur image_array blur_region = Some out -> all_u8 out.
Proof.
  intros Hu. unfold VeritasBlur.apply_blur.
  destruct (VeritasBlur.shape image_array) as [height width].
  destruct (VeritasBlur.bounds height width blur_region) as [[[sr sc] er] ec].
  intros Hrun. revert Hrun Hu. apply for_each_invariant.
  intros b i b'. apply for_each_invariant.
  intros b0 j b0'. apply blur_cell_u8.
Qed.

(** Box blur, variant B: the quotient is clamped, for any kernel and
    weight. *)
Lemma conv2d_range array kernel weight :
  all_u8 (VimzBlur.conv2d array kernel weight).
Proof.
  unfold VimzBlur.conv2d, all_u8. rewrite map_fmap. apply Forall_fmap.
  apply Forall_forall. intros i _. cbv [compose]. rewrite map_fmap.
  apply Forall_fmap. apply Forall_forall. intros j _. cbv [compose].
  cbv zeta. unfold is_u8.
  match goal with
  | |- context [255 <? ?v] =>
      destruct (Z.ltb_spec 255 v); [lia |]; destruct (Z.ltb_spec v 0); lia
  end.
Qed.

(** Grayscale. *)
Lemma grayscale_range image_array :
  VeritasGrayscale.image_u8 image_array ->
  all_u8 (VeritasGrayscale.rgb_to_grayscale image_array).
Proof.
  destruct image_array as [m | m]; cbn [VeritasGrayscale.image_u8
    VeritasGrayscale.rgb_to_grayscale]; [done |].
  intros Hm. unfold all_u8. rewrite map_fmap. apply Forall_fmap.
  eapply Forall_impl; [exact Hm |]. intros row Hrow. cbv [compose].
  rewrite map_fmap. apply Forall_fmap.
  eapply Forall_impl; [exact Hrow |]. intros [[r g] b] (Hr & Hg & Hb).
  cbv [compose]. by apply gray_value_floor.
Qed.

(** Brightness and contrast: the product is clipped before the conversion. *)
Lemma brightness_value_range f v : (VimzBrightness.adjust_value f v < 256)%N.
Proof.
  unfold VimzBrightness.adjust_value.
  destruct (to_u8_clip (F64.mul (F64.of_int (Z.of_N v)) f)) as [H _].
  unfold is_u8 in H. lia.
Qed.

Lemma contrast_value_range f v : (VimzContrast.adjust_value f v < 256)%N.
Proof.
  unfold VimzContrast.adjust_value.
  match goal with
  | |- context [F64.clip ?x _ _] => destruct (to_u8_clip x) as [H _]
  end.
  unfold is_u8 in H. lia.
Qed.

Lemma brightness_range image f :
  Forall (Forall HexCodec.pixel_u8) (VimzBrightness.adjust_brightness image f).
Proof.
  unfold VimzBrightness.adjust_brightness, VimzBrightness.map_channels.
  rewrite map_fmap. apply Forall_fmap. apply Forall_forall. intros row _.
  cbv [compose]. rewrite map_fmap. apply Forall_fmap.
  apply Forall_forall. intros px _. cbv [compose].
  destruct px; cbn [HexCodec.pixel_u8]; repeat split;
    apply brightness_value_range.
Qed.

Lemma contrast_range image f out :
  VimzContrast.adjust_contrast image f = Some out ->
  Forall (Forall HexCodec.pixel_u8) out.
Proof.
  unfold VimzContrast.adjust_contrast.
  apply mapM_Forall. intros row row'. apply mapM_Forall. intros px px'.
  destruct px; [discriminate |]. intros Hpx. injection Hpx as <-.
  cbn [HexCodec.pixel_u8]. repeat split; apply contrast_value_range.
Qed.

(** Crop: the output cells are input cells. *)
Lemma slice_Forall {A} (P : A -> Prop) (l : list A) a b :
  Forall P l -> Forall P (VeritasCrop.slice l a b).
Proof.
  intros Hl. unfold VeritasCrop.slice. by apply Forall_take, Forall_drop.
Qed.

Lemma crop_range image_array crop_x crop_y crop_width crop_height res :
  all_u8 image_array ->
  all_u8 (VeritasCrop.apply_crop image_array crop_x crop_y crop_width
            crop_height res).
Proof.
  intros Hu. unfold VeritasCrop.apply_crop, all_u8.
  destruct (VeritasCrop.sizes res) as [dw dh]. cbv zeta.
  rewrite map_fmap. apply Forall_fmap.
  eapply Forall_impl; [apply slice_Forall; exact Hu |].
  intros row Hrow. cbv [compose]. by apply slice_Forall.
Qed.

End KernelRanges.

Section BlurBImage.

Lemma Forall_zip_with_2 {A B C} (P : A -> Prop) (Q : B -> Prop) (R : C -> Prop)
    (f : A -> B -> C) (l : list A) :
  (forall x y, P x -> Q y -> R (f x y)) ->
  Forall P l -> forall k, Forall Q k -> Forall R (zip_with f l k).
Proof.
  intros Hf Hl. induction Hl as [|x l Hx _ IH]; intros k Hk; [constructor |].
  destruct Hk as [|y k Hy Hk]; [constructor |].
  cbn [zip_with]. constructor; [by apply Hf | by apply IH].
Qed.

Lemma blur_b_range image_array :
  Forall (Forall (Forall is_u8)) (VimzBlur.blur image_array).
Proof.
  unfold VimzBlur.blur, VimzBlur.dstack, VimzBlur.blur_channel.
  apply (Forall_zip_with_2 (Forall is_u8)
           (Forall (fun yz : Z * Z => is_u8 yz.1 /\ is_u8 yz.2))).
  - intros rr gb Hrr Hgb.
    apply (Forall_zip_with_2 is_u8 (fun yz : Z * Z => is_u8 yz.1 /\ is_u8 yz.2));
      [| done | done].
    intros x yz Hx [Hy Hz]. repeat (constructor; [done |]). constructor.
  - apply conv2d_range.
  - apply (Forall_zip_with_2 (Forall is_u8) (Forall is_u8));
      [| apply conv2d_range | apply conv2d_range].
    intros gg bb Hgg Hbb.
    by apply (Forall_zip_with_2 is_u8 is_u8
                (fun yz : Z * Z => is_u8 yz.1 /\ is_u8 yz.2)).
Qed.

End BlurBImage.

(** C9: for every kernel and every input buffer of 8-bit values, every value
    of the output lies in [0, 255], whatever the input and the factor:
    resize A and blur B clamp, blur A and grayscale average 8-bit values,
    brightness and contrast clip the float before its conversion (so that the
    conversion is exact), resize B stores into an 8-bit buffer, and crop
    copies input cells. *)
Theorem clamp_invariant :
  (forall image_array new_height new_width out,
      VeritasResize.resize_image_bilinear image_array new_height new_width
      = Some out ->
      all_u8 out)
  /\ (forall image_array new_height new_width out,
         VimzResize.resize_image image_array new_height new_width = Some out ->
         Forall (Forall (Forall is_u8)) out)
  /\ (forall image_array blur_region out,
         all_u8 image_array ->
         VeritasBlur.apply_blur image_array blur_region = Some out ->
         all_u8 out)
  /\ (forall array kernel weight, all_u8 (VimzBlur.conv2d array kernel weight))
  /\ (forall image_array,
         Forall (Forall (Forall is_u8)) (VimzBlur.blur image_array))
  /\ (forall image_array,
         VeritasGrayscale.image_u8 image_array ->
         all_u8 (VeritasGrayscale.rgb_to_grayscale image_array))
  /\ (forall image_array factor,
         Forall (Forall HexCodec.pixel_u8)
                (VimzBrightness.adjust_brightness image_array factor))
  /\ (forall factor v,
         F64.mul (F64.of_int (Z.of_N v)) factor <> S754_nan ->
         F64.to_int (F64.clip (F64.mul (F64.of_int (Z.of_N v)) factor)
                              (F64.of_int 0) (F64.of_int 255))
         = Some (Z.of_N (VimzBrightness.adjust_value factor v)))
  /\ (forall image_array factor out,
         VimzContrast.adjust_contrast image_array factor = Some out ->
         Forall (Forall HexCodec.pixel_u8) out)
  /\ (forall image_array crop_x crop_y crop_width crop_height res,
         all_u8 image_array ->
         all_u8 (VeritasCrop.apply_crop image_array crop_x crop_y crop_width
                   crop_height res)).
Proof.
  split; [exact resize_a_range |].
  split; [exact resize_b_range |].
  split; [intros img region out Hu Hrun; by eapply blur_a_range |].
  split; [exact conv2d_range |].
  split; [exact blur_b_range |].
  split; [exact grayscale_range |].
  split; [exact brightness_range |].
  split.
  { intros f v Hnan. unfold VimzBrightness.adjust_value.
    destruct (to_u8_clip (F64.mul (F64.of_int (Z.of_N v)) f)) as [Hr Hv].
    rewrite (Hv Hnan). unfold is_u8 in Hr. by rewrite Z2N.id by lia. }
  split; [exact contrast_range |].
  exact crop_range.
Qed.

Lemma clamp_invariant_witness :
  all_u8 [[77; 73; 30; 40]; [63; 60; 70; 80]; [90; 100; 110; 120];
          [130; 140; 150; 160]]
  /\ all_u8 [[10; 40]; [70; 100]; [130; 160]]
  /\ all_u8 (VeritasCrop.apply_crop VeritasBlur.sample 1 1 (Some 2) None
               VeritasCrop.HD).
Proof.
  assert (Hsample : all_u8 VeritasBlur.sample).
  { unfold all_u8, is_u8, VeritasBlur.sample. repeat (constructor; try lia). }
  destruct clamp_invariant
    as (Hresize & _ & Hblur & _ & _ & _ & _ & _ & _ & Hcrop).
  split; [| split].
  - apply (Hblur VeritasBlur.sample (Some (0, 0, 2, 2)) _ Hsample).
    vm_compute. reflexivity.
  - apply (Hresize VeritasBlur.sample 3 2). vm_compute. reflexivity.
  - apply (Hcrop VeritasBlur.sample 1 1 (Some 2) None VeritasCrop.HD Hsample).
Defined.

(** * Further properties of the kernels *)

(** ** Resize, variant A: totality, range and exact cells *)

Section ResizeA.

Import VeritasResize.











End ResizeA.




Lemma round_div_exact (a q : Z) : 0 < q -> Py.round_div (a * q) q = a.
Proof.
  intros Hq. unfold Py.round_div.
  rewrite Z.div_mul, Z.mod_mul by lia.
  destruct (Z.ltb_spec (2 * 0) q); [reflexivity | lia].
Qed.









(** ** The hex codec: geometry of the output *)

Section CompressGeometry.

Import HexCodec.

(** A property of the words holds for a row when it holds for the word of
    every full group. *)
Lemma compress_row_groups (P : string -> Prop) (Q : pixel -> Prop) :
  (forall g, length g = 10%nat -> Forall Q g -> P ("0x" +:+ group_digits g)) ->
  forall (k : nat) (row : list pixel),
    (length row < 10 * S k)%nat -> Forall Q row -> Forall P (compress_row row).
Proof.
  intros Hword. induction k as [|k IH]; intros row Hlen Hrow.
  - rewrite compress_row_short by lia. constructor.
  - destruct (decide (length row < 10)%nat) as [Hshort | Hlong].
    { rewrite compress_row_short by lia. constructor. }
    rewrite <- (take_drop 10 row).
    rewrite compress_row_group by (rewrite length_take; lia).
    constructor.
    + apply Hword; [rewrite length_take; lia | by apply Forall_take].
    + apply IH; [rewrite length_drop; lia | by apply Forall_drop].
Qed.

Lemma length_group_digits d (g : list pixel) :
  Forall (fits d) g -> String.length (group_digits g) = (6 * length g)%nat.
Proof.
  induction 1 as [|px g Hpx _ IH]; [reflexivity |].
  cbn [group_digits length]. rewrite string_length_app, IH.
  rewrite (pixel_digits_length d px Hpx). lia.
Qed.

Lemma compress_row_count (k : nat) : forall (row : list pixel),
  (length row < 10 * S k)%nat ->
  length (compress_row row) = (length row / 10)%nat.
Proof.
  induction k as [|k IH]; intros row Hlen.
  - rewrite compress_row_short by lia. cbn [length].
    symmetry. apply Nat.div_small. lia.
  - destruct (decide (length row < 10)%nat) as [Hshort | Hlong].
    { rewrite compress_row_short by lia. cbn [length].
      symmetry. apply Nat.div_small. lia. }
    rewrite <- (take_drop 10 row) at 1.
    rewrite compress_row_group by (rewrite length_take; lia).
    cbn [length]. rewrite IH by (rewrite length_drop; lia).
    rewrite length_drop.
    replace (length row) with (1 * 10 + (length row - 10))%nat at 2 by lia.
    rewrite Nat.div_add_l by lia. reflexivity.
Qed.

End CompressGeometry.

(** Every word of a buffer whose pixels fit their fields is ["0x"] and sixty
    digits. *)
Lemma compress_words_62 (d : HexCodec.depth) (image : list (list HexCodec.pixel)) :
  Forall (Forall (HexCodec.fits d)) image ->
  Forall (Forall (fun word => String.length word = 62%nat))
         (HexCodec.compress image).
Proof.
  intros Himage. unfold HexCodec.compress. rewrite map_fmap.
  apply Forall_fmap. eapply Forall_impl; [exact Himage |].
  intros row Hrow. cbv [compose].
  apply (compress_row_groups _ (HexCodec.fits d)) with (k := length row);
    [| lia | exact Hrow].
  intros g Hg Hfit.
  change ("0x" +:+ HexCodec.group_digits g)
    with (String "0" (String "x" (HexCodec.group_digits g))).
  cbn [String.length]. rewrite (length_group_digits d g Hfit), Hg. reflexivity.
Qed.

(** The packed buffer has the rows of the input and a tenth of its columns. *)
Lemma compress_has_shape (image : list (list HexCodec.pixel)) (h w : nat) :
  has_shape image h w -> has_shape (HexCodec.compress image) h (w / 10).
Proof.
  intros [Hlen Hrows]. unfold HexCodec.compress. split.
  - by rewrite length_map.
  - rewrite map_fmap. apply Forall_fmap.
    eapply Forall_impl; [exact Hrows |]. intros row Hrow. cbv [compose].
    rewrite (compress_row_count (length row)) by lia. by rewrite Hrow.
Qed.

(** X5: every word that [compress] emits for pixels that fit their fields
    has the same width: ["0x"] and sixty digits. *)
Theorem compress_word_width (d : HexCodec.depth) (image : list (list HexCodec.pixel)) :
  Forall (Forall (HexCodec.fits d)) image ->
  Forall (Forall (fun word => String.length word = 62%nat))
         (HexCodec.compress image).
Proof. apply compress_words_62. Qed.

Lemma compress_word_width_witness :
  Forall (Forall (fun word => String.length word = 62%nat))
         (HexCodec.compress [HexCodec.twelve_gray]).
Proof.
  apply (compress_word_width HexCodec.Depth1 [HexCodec.twelve_gray]).
  unfold HexCodec.twelve_gray, HexCodec.ten_gray. cbn [map app].
  repeat (constructor; try reflexivity).
Defined.

(** X6: [compress] keeps the number of rows and packs a row of width [w]
    into [w / 10] words, whatever the pixel values. *)
Theorem compress_shape (image : list (list HexCodec.pixel)) (h w : nat) :
  has_shape image h w -> has_shape (HexCodec.compress image) h (w / 10).
Proof. apply compress_has_shape. Qed.

Lemma compress_shape_witness :
  has_shape (HexCodec.compress [HexCodec.twelve_gray]) 1 (12 / 10).
Proof.
  apply (compress_shape [HexCodec.twelve_gray] 1 12).
  split; [reflexivity | repeat constructor].
Defined.

(** X7: a row whose first part is a whole number of groups is packed part by
    part. *)
Theorem compress_row_app (k : nat) : forall (a b : list HexCodec.pixel),
  length a = (10 * k)%nat ->
  HexCodec.compress_row (a ++ b)
  = HexCodec.compress_row a ++ HexCodec.compress_row b.
Proof.
  induction k as [|k IH]; intros a b Ha.
  - destruct a; [| cbn in Ha; lia].
    cbn [app]. by rewrite (compress_row_short []) by (cbn; lia).
  - rewrite <- (take_drop 10 a), <- app_assoc.
    rewrite (compress_row_group (take 10 a) (drop 10 a ++ b))
      by (rewrite length_take; lia).
    rewrite (compress_row_group (take 10 a) (drop 10 a))
      by (rewrite length_take; lia).
    rewrite IH by (rewrite length_drop; lia). reflexivity.
Qed.

Lemma compress_row_app_witness :
  HexCodec.compress_row (HexCodec.ten_gray ++ map HexCodec.Scalar [11; 12]%N)
  = HexCodec.compress_row HexCodec.ten_gray
    ++ HexCodec.compress_row (map HexCodec.Scalar [11; 12]%N).
Proof. apply (compress_row_app 1). reflexivity. Defined.

(** ** Box blur, variant B: shape and cell values *)

Section BlurB.

Import VimzBlur.

(** The convolution returns a channel of the shape of its input. *)
Lemma conv2d_has_shape (array kernel : list (list Z)) (weight : Z) (h w : nat) :
  has_shape array h w -> has_shape (conv2d array kernel weight) h w.
Proof.
  intros Hshape. pose proof Hshape as [Hlen Hrows]. split.
  - by rewrite length_conv2d.
  - apply Forall_lookup. intros i row Hrow.
    assert (Hi : (i < h)%nat).
    { apply lookup_lt_Some in Hrow. by rewrite length_conv2d, Hlen in Hrow. }
    apply list_lookup_total_correct in Hrow. subst row.
    rewrite length_conv2d_row by lia.
    apply (has_shape_row array h w 0 Hshape). lia.
Qed.

Lemma extend_padded (array : list (list Z)) (h w r c : nat) :
  (r < h + 2 * 1)%nat -> (c < w + 2 * 1)%nat ->
  cell (extend array h w 1) r c
  = padded array h w (Z.of_nat r - 1) (Z.of_nat c - 1).
Proof.
  intros Hr Hc. rewrite cell_extend by done. unfold padded.
  destruct (Nat.leb_spec 1 r), (Nat.ltb_spec r (1 + h)),
    (Nat.leb_spec 1 c), (Nat.ltb_spec c (1 + w));
    destruct (Z.leb_spec 0 (Z.of_nat r - 1)),
      (Z.ltb_spec (Z.of_nat r - 1) (Z.of_nat h)),
      (Z.leb_spec 0 (Z.of_nat c - 1)),
      (Z.ltb_spec (Z.of_nat c - 1) (Z.of_nat w)); cbn [andb]; try lia;
    try reflexivity.
  f_equal; lia.
Qed.

Lemma conv_value_window (array : list (list Z)) (h w i j : nat) :
  (i < h)%nat -> (j < w)%nat ->
  conv_value (extend array h w 1) ones3 3 3 i j
  = padded_window array h w (Z.of_nat i) (Z.of_nat j).
Proof.
  intros Hi Hj. unfold conv_value. cbn [seq fold_left].
  change (cell ones3 _ _) with 1.
  rewrite !extend_padded by lia. unfold padded_window.
  replace (Z.of_nat (i + 0) - 1) with (Z.of_nat i - 1) by lia.
  replace (Z.of_nat (i + 1) - 1) with (Z.of_nat i) by lia.
  replace (Z.of_nat (i + 2) - 1) with (Z.of_nat i + 1) by lia.
  replace (Z.of_nat (j + 0) - 1) with (Z.of_nat j - 1) by lia.
  replace (Z.of_nat (j + 1) - 1) with (Z.of_nat j) by lia.
  replace (Z.of_nat (j + 2) - 1) with (Z.of_nat j + 1) by lia.
  lia.
Qed.

Lemma padded_u8 (array : list (list Z)) (h w : nat) (r c : Z) :
  has_shape array h w -> all_u8 array -> is_u8 (padded array h w r c).
Proof.
  intros Hshape Hu. unfold padded.
  destruct (Z.leb_spec 0 r), (Z.ltb_spec r (Z.of_nat h)),
    (Z.leb_spec 0 c), (Z.ltb_spec c (Z.of_nat w)); cbn [andb];
    try (unfold is_u8; lia).
  apply (cell_u8 array h w); try done; lia.
Qed.

Lemma padded_window_bounds (array : list (list Z)) (h w : nat) (i j : Z) :
  has_shape array h w -> all_u8 array ->
  0 <= padded_window array h w i j <= 9 * 255.
Proof.
  intros Hshape Hu. unfold padded_window.
  pose proof (fun r c => padded_u8 array h w r c Hshape Hu) as P.
  unfold is_u8 in P.
  pose proof (P (i - 1) (j - 1)). pose proof (P (i - 1) j).
  pose proof (P (i - 1) (j + 1)). pose proof (P i (j - 1)).
  pose proof (P i j). pose proof (P i (j + 1)).
  pose proof (P (i + 1) (j - 1)). pose proof (P (i + 1) j).
  pose proof (P (i + 1) (j + 1)). lia.
Qed.

End BlurB.

(** A cell of the variant B blur of an 8-bit channel: the floor of the
    window sum over nine. *)
Lemma blur_channel_cell_value (array : list (list Z)) (h w i j : nat) :
  has_shape array h w -> all_u8 array -> (i < h)%nat -> (j < w)%nat ->
  cell (VimzBlur.blur_channel array) i j
  = VimzBlur.padded_window array h w (Z.of_nat i) (Z.of_nat j) / 9.
Proof.
  intros Hshape Hu Hi Hj. unfold VimzBlur.blur_channel.
  pose proof Hshape as [Hlen _].
  pose proof (has_shape_row array h w 0 Hshape ltac:(lia)) as Hwidth.
  rewrite cell_conv2d by (rewrite ?Hlen, ?Hwidth; done).
  rewrite Hlen, Hwidth. change (length VimzBlur.ones3) with 3%nat.
  change (length (VimzBlur.ones3 !!! 0%nat)) with 3%nat.
  change (3 / 2)%nat with 1%nat.
  rewrite conv_value_window by done. cbv zeta.
  pose proof (padded_window_bounds array h w (Z.of_nat i) (Z.of_nat j)
                Hshape Hu) as Hs.
  assert (Hq : 0 <= VimzBlur.padded_window array h w (Z.of_nat i) (Z.of_nat j) / 9
               <= 255).
  { split; [apply Z.div_pos; lia | apply Z.div_le_upper_bound; lia]. }
  destruct (Z.ltb_spec 255
              (VimzBlur.padded_window array h w (Z.of_nat i) (Z.of_nat j) / 9));
    [lia |].
  destruct (Z.ltb_spec
              (VimzBlur.padded_window array h w (Z.of_nat i) (Z.of_nat j) / 9) 0);
    [lia | reflexivity].
Qed.



(** X9: on a channel of 8-bit values every cell of the variant B blur is the
    floor of the sum of its 3x3 window over nine, the cells outside the
    channel counting as 0; the clamp never acts. *)
Theorem blur_channel_cells (array : list (list Z)) (h w i j : nat) :
  has_shape array h w -> all_u8 array -> (i < h)%nat -> (j < w)%nat ->
  cell (VimzBlur.blur_channel array) i j
  = VimzBlur.padded_window array h w (Z.of_nat i) (Z.of_nat j) / 9.
Proof. apply blur_channel_cell_value. Qed.

Lemma blur_channel_cells_witness :
  cell (VimzBlur.blur_channel VeritasBlur.sample) 0 3
  = VimzBlur.padded_window VeritasBlur.sample 4 4 (Z.of_nat 0) (Z.of_nat 3) / 9.
Proof.
  apply (blur_channel_cells VeritasBlur.sample 4 4 0 3); try lia.
  - split; [reflexivity | repeat constructor].
  - unfold all_u8, is_u8, VeritasBlur.sample. repeat (constructor; try lia).
Defined.

Section Variants.

Lemma window_sum_padded (image_array : list (list Z)) (h w : nat) (i j : Z) :
  1 <= i -> i + 1 < Z.of_nat h -> 1 <= j -> j + 1 < Z.of_nat w ->
  VeritasBlur.window_sum image_array (Z.of_nat h) (Z.of_nat w) i j
  = VimzBlur.padded_window image_array h w i j.
Proof.
  intros Hi0 Hi1 Hj0 Hj1.
  assert (Hread : forall r c,
            0 <= r < Z.of_nat h -> 0 <= c < Z.of_nat w ->
            VeritasBlur.read image_array (Z.of_nat h) (Z.of_nat w) r c
            = VimzBlur.padded image_array h w r c).
  { intros r c Hr Hc. unfold VeritasBlur.read, VimzBlur.padded, Py.wrap.
    destruct (Z.ltb_spec r 0); [lia |]. destruct (Z.ltb_spec c 0); [lia |].
    destruct (Z.leb_spec 0 r); [| lia].
    destruct (Z.ltb_spec r (Z.of_nat h)); [| lia].
    destruct (Z.leb_spec 0 c); [| lia].
    destruct (Z.ltb_spec c (Z.of_nat w)); [| lia]. reflexivity. }
  unfold VeritasBlur.window_sum, VimzBlur.padded_window.
  rewrite !Hread by lia. reflexivity.
Qed.

Lemma round_div_floor_gap (s : Z) : s / 9 <= Py.round_div s 9 <= s / 9 + 1.
Proof.
  unfold Py.round_div.
  destruct (2 * (s mod 9) <? 9); [lia |].
  destruct (9 <? 2 * (s mod 9)); [lia |].
  destruct (Z.even (s / 9)); lia.
Qed.

End Variants.

(** X10: on the interior of an 8-bit image the two blur variants average the
    same nine cells and differ by the rounding only: variant A (rounding to
    nearest) is variant B (rounding down) or one more. *)
Theorem blur_variants_agree (image_array : list (list Z)) (h w : nat) :
  has_shape image_array h w -> all_u8 image_array ->
  exists out,
    VeritasBlur.apply_blur image_array None = Some out
    /\ forall i j : nat,
         (1 <= i)%nat -> (i + 1 < h)%nat -> (1 <= j)%nat -> (j + 1 < w)%nat ->
         cell (VimzBlur.blur_channel image_array) i j <= cell out i j
         <= cell (VimzBlur.blur_channel image_array) i j + 1.
Proof.
  intros Hshape Hu.
  destruct (apply_blur_cells image_array h w None Hshape I)
    as (out & Hrun & _ & Hcells).
  exists out. split; [exact Hrun |].
  intros i j Hi0 Hi1 Hj0 Hj1.
  destruct (Hcells i j ltac:(lia) ltac:(lia)) as [Hin _].
  rewrite Hin by (cbn [VeritasBlur.bounds VeritasBlur.in_region]; lia).
  destruct (blurred_value_u8 image_array h w (Z.of_nat i) (Z.of_nat j))
    as [-> _]; try done; try (unfold VeritasBlur.visitable; lia).
  rewrite (blur_channel_cell_value image_array h w) by (done || lia).
  rewrite window_sum_padded by lia.
  apply round_div_floor_gap.
Qed.

Lemma blur_variants_agree_witness :
  exists out,
    VeritasBlur.apply_blur VeritasBlur.sample None = Some out
    /\ cell (VimzBlur.blur_channel VeritasBlur.sample) 1 2 <= cell out 1 2
       <= cell (VimzBlur.blur_channel VeritasBlur.sample) 1 2 + 1.
Proof.
  destruct (blur_variants_agree VeritasBlur.sample 4 4) as (out & Hout & Hc).
  - split; [reflexivity | repeat constructor].
  - unfold all_u8, is_u8, VeritasBlur.sample. repeat (constructor; try lia).
  - exists out. split; [exact Hout |]. apply Hc; lia.
Defined.

(** ** Box blur, variant A: fixed points and errors *)

Section BlurA.

Import VeritasBlur.

Lemma uniform_has_shape {A} (h w : nat) (x : A) :
  has_shape (VimzBlur.uniform h w x) h w.
Proof.
  unfold VimzBlur.uniform. split; [apply length_replicate |].
  apply Forall_replicate, length_replicate.
Qed.

Lemma uniform_u8 (h w : nat) (x : Z) : is_u8 x -> all_u8 (VimzBlur.uniform h w x).
Proof. intros Hx. by apply Forall_replicate, Forall_replicate. Qed.

Lemma read_uniform (h w : nat) (x : Z) (i j : Z) :
  - Z.of_nat h <= i < Z.of_nat h -> - Z.of_nat w <= j < Z.of_nat w ->
  read (VimzBlur.uniform h w x) (Z.of_nat h) (Z.of_nat w) i j = x.
Proof.
  intros Hi Hj. unfold read. apply cell_uniform; unfold Py.wrap.
  - destruct (Z.ltb_spec i 0); lia.
  - destruct (Z.ltb_spec j 0); lia.
Qed.

Lemma for_each_none {A S} (body : S -> A -> option S) (x : A) (l : list A) (s : S) :
  body s x = None -> Py.for_each body (x :: l) s = None.
Proof. intros Hx. rewrite for_each_cons, Hx. reflexivity. Qed.

Lemma for_each_skip {A B S} (inner : list B) (body : S -> A -> B -> option S)
    (l : list A) (s : S) :
  inner = [] ->
  Py.for_each (fun s' x => Py.for_each (fun s'' y => body s'' x y) inner s') l s
  = Some s.
Proof.
  intros ->. induction l as [|x l IH]; [reflexivity |].
  rewrite for_each_cons. cbn [Py.for_each fold_left mbind option_bind].
  exact IH.
Qed.

Lemma range_empty (a b : Z) : b <= a -> Py.range a b = [].
Proof. intros Hab. unfold Py.range. apply seqZ_nil. lia. Qed.

Lemma range_cons (a b : Z) : a < b -> Py.range a b = a :: Py.range (a + 1) b.
Proof.
  intros Hab. unfold Py.range. rewrite seqZ_cons by lia.
  f_equal. f_equal; lia.
Qed.

(** When the loops visit no cell the copy of the input is returned. *)
Lemma apply_blur_no_cell (image_array : list (list Z))
    (blur_region : option (Z * Z * Z * Z)) (sr sc er ec : Z) :
  bounds (shape image_array).1 (shape image_array).2 blur_region
  = (sr, sc, er, ec) ->
  er <= sr \/ ec <= sc ->
  apply_blur image_array blur_region = Some image_array.
Proof.
  intros Hb Hempty. unfold apply_blur.
  destruct (shape image_array) as [height width]. cbn [fst snd] in Hb.
  rewrite Hb. destruct Hempty as [Hrows | Hcols].
  - by rewrite (range_empty sr er).
  - apply (for_each_skip (Py.range sc ec)
             (fun b i j => blur_cell image_array b i j)).
    by apply range_empty.
Qed.

End BlurA.

(** X11: variant A leaves the image unchanged when there is nothing to blur:
    with the default region on an image of fewer than 3 rows or columns, and
    with an explicit region of height or width 0 or less. *)
Theorem apply_blur_nothing_to_blur (image_array : list (list Z)) (h w : nat) :
  has_shape image_array h w ->
  ((h < 3)%nat \/ (w < 3)%nat ->
   VeritasBlur.apply_blur image_array None = Some image_array)
  /\ (forall start_row start_col blur_h blur_w,
         blur_h <= 0 \/ blur_w <= 0 ->
         VeritasBlur.apply_blur image_array
           (Some (start_row, start_col, blur_h, blur_w))
         = Some image_array).
Proof.
  intros Hshape. pose proof Hshape as [Hlen _].
  assert (Hwidth : (0 < h)%nat -> length (image_array !!! 0%nat) = w)
    by (intros Hh; exact (has_shape_row image_array h w 0 Hshape Hh)).
  split.
  - intros Hsmall.
    eapply apply_blur_no_cell; [reflexivity |].
    unfold VeritasBlur.shape. cbn [fst snd]. rewrite Hlen.
    destruct h as [|h']; [lia |]. rewrite Hwidth by lia. lia.
  - intros sr sc bh bw Hempty.
    eapply apply_blur_no_cell; [reflexivity |]. lia.
Qed.

Lemma apply_blur_nothing_to_blur_witness :
  ((2 < 3)%nat \/ (4 < 3)%nat ->
   VeritasBlur.apply_blur [[1; 2; 3; 4]; [5; 6; 7; 8]] None
   = Some [[1; 2; 3; 4]; [5; 6; 7; 8]])
  /\ (forall start_row start_col blur_h blur_w,
         blur_h <= 0 \/ blur_w <= 0 ->
         VeritasBlur.apply_blur [[1; 2; 3; 4]; [5; 6; 7; 8]]
           (Some (start_row, start_col, blur_h, blur_w))
         = Some [[1; 2; 3; 4]; [5; 6; 7; 8]]).
Proof.
  apply (apply_blur_nothing_to_blur [[1; 2; 3; 4]; [5; 6; 7; 8]] 2 4).
  split; [reflexivity | repeat constructor].
Defined.

(** X12: variant A leaves a uniform 8-bit image unchanged, for the default
    region and for every region that starts at non-negative coordinates
    (the wrap-around of row or column 0 reads the same value). *)
Theorem apply_blur_uniform (h w : nat) (x : Z)
    (blur_region : option (Z * Z * Z * Z)) :
  is_u8 x -> VeritasBlur.region_ok blur_region ->
  VeritasBlur.apply_blur (VimzBlur.uniform h w x) blur_region
  = Some (VimzBlur.uniform h w x).
Proof.
  intros Hx Hreg.
  destruct (apply_blur_cells (VimzBlur.uniform h w x) h w blur_region
              (uniform_has_shape h w x) Hreg) as (out & Hrun & Hos & Hcells).
  rewrite Hrun. f_equal.
  pose proof (uniform_has_shape h w x) as Hus.
  pose proof Hos as [Hlen Hrows]. pose proof Hus as [Hlen' Hrows'].
  assert (Hcell : forall r c : nat, (r < h)%nat -> (c < w)%nat ->
            cell out r c = cell (VimzBlur.uniform h w x) r c).
  { intros r c Hr Hc. destruct (Hcells r c Hr Hc) as [Hin Hout].
    destruct (VeritasBlur.bounds (Z.of_nat h) (Z.of_nat w) blur_region)
      as [[[sr sc] er] ec] eqn:Hb.
    destruct (decide (sr <= Z.of_nat r < er /\ sc <= Z.of_nat c < ec))
      as [Hyes | Hno]; [| by apply Hout].
    rewrite Hin by exact Hyes.
    assert (Hvis : VeritasBlur.visitable h (Z.of_nat r)
                   /\ VeritasBlur.visitable w (Z.of_nat c)).
    { unfold VeritasBlur.visitable.
      destruct blur_region as [[[[? ?] ?] ?] |]; cbn in Hb, Hreg;
        injection Hb as <- <- <- <-; lia. }
    destruct Hvis as [Hvr Hvc].
    destruct (blurred_value_u8 (VimzBlur.uniform h w x) h w (Z.of_nat r)
                (Z.of_nat c) Hus (uniform_u8 h w x Hx) Hvr Hvc) as [-> _].
    unfold VeritasBlur.window_sum. destruct Hvr, Hvc.
    rewrite !read_uniform by lia. rewrite cell_uniform by done.
    replace (x + x + x + x + x + x + x + x + x) with (x * 9) by lia.
    apply round_div_exact. lia. }
  apply list_eq_same_length with h; try done.
  intros r row row' Hr Hrow Hrow'.
  pose proof (proj1 (Forall_lookup _ _) Hrows r row Hrow) as Hl.
  pose proof (proj1 (Forall_lookup _ _) Hrows' r row' Hrow') as Hl'.
  cbv beta in Hl, Hl'.
  apply list_eq_same_length with w; try done.
  intros c v v' Hc Hv Hv'.
  specialize (Hcell r c Hr Hc). unfold cell in Hcell.
  by rewrite (list_lookup_total_correct _ _ _ Hrow),
    (list_lookup_total_correct _ _ _ Hrow'),
    (list_lookup_total_correct _ _ _ Hv),
    (list_lookup_total_correct _ _ _ Hv') in Hcell.
Qed.

Lemma apply_blur_uniform_witness :
  VeritasBlur.apply_blur (VimzBlur.uniform 4 5 200) (Some (0, 0, 3, 3))
  = Some (VimzBlur.uniform 4 5 200).
Proof.
  apply (apply_blur_uniform 4 5 200 (Some (0, 0, 3, 3))).
  - unfold is_u8. lia.
  - cbn. lia.
Defined.

(** X13: a non-empty region that starts more than [H - 1] rows above the image
    (or [W - 1] columns to its left) raises [IndexError]: Python's negative
    indices reach back over one extent only. *)
Theorem apply_blur_index_error (image_array : list (list Z)) (h w : nat)
    (start_row start_col blur_h blur_w : Z) :
  has_shape image_array h w -> (0 < h)%nat ->
  0 < blur_h -> 0 < blur_w ->
  start_row < Z.of_nat h - 1 -> start_col < Z.of_nat w - 1 ->
  start_row < 1 - Z.of_nat h \/ start_col < 1 - Z.of_nat w ->
  VeritasBlur.apply_blur image_array
    (Some (start_row, start_col, blur_h, blur_w)) = None.
Proof.
  intros Hshape Hh Hbh Hbw Hsr Hsc Hfar. pose proof Hshape as [Hlen _].
  unfold VeritasBlur.apply_blur, VeritasBlur.shape.
  rewrite Hlen, (has_shape_row image_array h w 0 Hshape Hh).
  cbn [VeritasBlur.bounds].
  rewrite (range_cons start_row) by lia. apply for_each_none.
  rewrite (range_cons start_col) by lia. apply for_each_none.
  unfold VeritasBlur.blur_cell, VeritasBlur.sum_val, Py.index2.
  destruct (Py.index image_array (start_row - 1)) as [row |] eqn:Hrow;
    [| reflexivity].
  cbn [mbind option_bind].
  assert (Hrow_in : - Z.of_nat h <= start_row - 1 < Z.of_nat h).
  { unfold Py.index in Hrow. rewrite Hlen in Hrow.
    destruct (Z.leb_spec 0 (start_row - 1)),
      (Z.ltb_spec (start_row - 1) (Z.of_nat h)),
      (Z.leb_spec (- Z.of_nat h) (start_row - 1)),
      (Z.ltb_spec (start_row - 1) 0); cbn [andb] in Hrow;
      try discriminate Hrow; lia. }
  destruct Hfar as [Hfar | Hfar]; [lia |].
  assert (Hlen_row : length row = w).
  { rewrite (index_inside image_array) in Hrow by (rewrite Hlen; lia).
    injection Hrow as <-. apply (has_shape_row image_array h w); [done |].
    rewrite Hlen. unfold Py.wrap. destruct (Z.ltb_spec (start_row - 1) 0); lia. }
  assert (Hcol : Py.index row (start_col - 1) = None).
  { unfold Py.index. rewrite Hlen_row.
    destruct (Z.leb_spec 0 (start_col - 1)); [lia |]. cbn [andb].
    destruct (Z.leb_spec (- Z.of_nat w) (start_col - 1)); [lia |]. reflexivity. }
  rewrite Hcol. reflexivity.
Qed.

Lemma apply_blur_index_error_witness :
  VeritasBlur.apply_blur VeritasBlur.sample (Some (-4, 0, 2, 2)) = None.
Proof.
  apply (apply_blur_index_error VeritasBlur.sample 4 4 (-4) 0 2 2); try lia.
  split; [reflexivity | repeat constructor].
Defined.

(** ** Crop, raw-array family: the cells of the crop *)

Section Crop.

Import VeritasCrop.

Lemma slice_inside {A} (l : list A) (a n : Z) :
  0 <= a -> 0 <= n -> a + n <= Z.of_nat (length l) ->
  slice l a (a + n) = take (Z.to_nat n) (drop (Z.to_nat a) l).
Proof.
  intros Ha Hn Hlen. unfold slice, slice_bound.
  destruct (Z.ltb_spec a 0); [lia |].
  destruct (Z.ltb_spec (a + n) 0); [lia |].
  rewrite !Z.min_l by lia. do 2 f_equal. lia.
Qed.

Lemma cell_take_drop (m : list (list Z)) (a b n k r c : nat) :
  (r < n)%nat -> (c < k)%nat ->
  cell (map (fun row => take k (drop b row)) (take n (drop a m))) r c
  = cell m (a + r) (b + c).
Proof.
  intros Hr Hc. unfold cell. rewrite map_fmap.
  rewrite !list_lookup_total_alt, list_lookup_fmap.
  rewrite lookup_take_lt, lookup_drop by done.
  destruct (m !! (a + r)%nat) as [row |]; simpl.
  - rewrite lookup_take_lt, lookup_drop by done. reflexivity.
  - reflexivity.
Qed.

End Crop.

(** X14: for a crop that starts inside the image, the output holds exactly the
    cells [image[crop_y + r][crop_x + c]], and its extent is the requested
    one silently cut to what remains of the image. *)
Theorem apply_crop_cells (image_array : list (list Z)) (h w : nat)
    (crop_x crop_y : Z) (crop_width crop_height : option Z)
    (res : VeritasCrop.resolution) :
  has_shape image_array h w -> (0 < h)%nat ->
  0 <= crop_x <= Z.of_nat w -> 0 <= crop_y <= Z.of_nat h ->
  0 <= default (VeritasCrop.sizes res).1 crop_width ->
  0 <= default (VeritasCrop.sizes res).2 crop_height ->
  let cw := Z.min (default (VeritasCrop.sizes res).1 crop_width)
                  (Z.of_nat w - crop_x) in
  let ch := Z.min (default (VeritasCrop.sizes res).2 crop_height)
                  (Z.of_nat h - crop_y) in
  let out := VeritasCrop.apply_crop image_array crop_x crop_y crop_width
               crop_height res in
  has_shape out (Z.to_nat ch) (Z.to_nat cw)
  /\ forall r c : nat, Z.of_nat r < ch -> Z.of_nat c < cw ->
       cell out r c
       = cell image_array (Z.to_nat crop_y + r) (Z.to_nat crop_x + c).
Proof.
  intros Hshape Hh Hx Hy Hcw Hch cw ch out. subst out.
  unfold VeritasCrop.apply_crop.
  pose proof Hshape as [Hlen Hrows].
  rewrite Hlen, (has_shape_row image_array h w 0 Hshape Hh).
  destruct (VeritasCrop.sizes res) as [dw dh]. cbn [fst snd] in *. cbv zeta.
  fold cw ch.
  assert (Hcw' : 0 <= cw <= Z.of_nat w - crop_x) by (subst cw; lia).
  assert (Hch' : 0 <= ch <= Z.of_nat h - crop_y) by (subst ch; lia).
  clearbody cw ch.
  rewrite (slice_inside image_array crop_y ch) by lia.
  assert (Hrow_slice : forall row : list Z, length row = w ->
            VeritasCrop.slice row crop_x (crop_x + cw)
            = take (Z.to_nat cw) (drop (Z.to_nat crop_x) row)).
  { intros row Hrow. apply slice_inside; lia. }
  assert (Hmap : map (fun row => VeritasCrop.slice row crop_x (crop_x + cw))
                     (take (Z.to_nat ch) (drop (Z.to_nat crop_y) image_array))
                 = map (fun row => take (Z.to_nat cw) (drop (Z.to_nat crop_x) row))
                       (take (Z.to_nat ch) (drop (Z.to_nat crop_y) image_array))).
  { rewrite !map_fmap. apply Forall_fmap_ext_1.
    apply Forall_take, Forall_drop.
    eapply Forall_impl; [exact Hrows |]. intros row Hrow. by apply Hrow_slice. }
  rewrite Hmap. split.
  - split.
    + rewrite length_map, length_take, length_drop. lia.
    + rewrite map_fmap. apply Forall_fmap. apply Forall_take, Forall_drop.
      eapply Forall_impl; [exact Hrows |]. intros row Hrow. cbv [compose]. cbv beta in Hrow |- *.
      rewrite length_take, length_drop. lia.
  - intros r c Hr Hc. apply cell_take_drop; lia.
Qed.

Lemma apply_crop_cells_witness :
  has_shape (VeritasCrop.apply_crop VeritasBlur.sample 1 1 (Some 2) None
               VeritasCrop.HD) 3 2
  /\ cell (VeritasCrop.apply_crop VeritasBlur.sample 1 1 (Some 2) None
             VeritasCrop.HD) 2 1
     = cell VeritasBlur.sample 3 2.
Proof.
  destruct (apply_crop_cells VeritasBlur.sample 4 4 1 1 (Some 2) None
              VeritasCrop.HD) as [Hs Hc]; try (cbn; lia).
  - split; [reflexivity | repeat constructor].
  - split; [exact Hs |]. apply (Hc 2%nat 1%nat); cbn; lia.
Defined.

(** ** Grayscale: bounds and the converter's arrays *)

(** X15: the gray value of a pixel lies between its smallest and its largest
    channel; a neutral pixel keeps its value. *)
Theorem gray_value_between (r g b : Z) :
  is_u8 r -> is_u8 g -> is_u8 b ->
  Z.min r (Z.min g b) <= VeritasGrayscale.gray_value (r, g, b)
                      <= Z.max r (Z.max g b)
  /\ (r = g -> g = b -> VeritasGrayscale.gray_value (r, g, b) = r).
Proof.
  intros Hr Hg Hb.
  destruct (gray_value_floor r g b Hr Hg Hb) as [-> _]. unfold is_u8 in *.
  assert (Hlo : Z.min r (Z.min g b) <= (299 * r + 587 * g + 114 * b) / 1000).
  { apply Z.div_le_lower_bound; lia. }
  assert (Hhi : (299 * r + 587 * g + 114 * b) / 1000 <= Z.max r (Z.max g b)).
  { apply Z.div_le_upper_bound; lia. }
  split; [lia |]. intros -> ->. lia.
Qed.

Lemma gray_value_between_witness :
  Z.min 200 (Z.min 100 50) <= VeritasGrayscale.gray_value (200, 100, 50)
                           <= Z.max 200 (Z.max 100 50)
  /\ (200 = 100 -> 100 = 50 -> VeritasGrayscale.gray_value (200, 100, 50) = 200).
Proof. apply (gray_value_between 200 100 50); unfold is_u8; lia. Defined.

(** X16: the gray value never decreases when a channel increases. *)
Theorem gray_value_monotone (r g b r' g' b' : Z) :
  is_u8 r -> is_u8 g -> is_u8 b -> is_u8 r' -> is_u8 g' -> is_u8 b' ->
  r <= r' -> g <= g' -> b <= b' ->
  VeritasGrayscale.gray_value (r, g, b) <= VeritasGrayscale.gray_value (r', g', b').
Proof.
  intros Hr Hg Hb Hr' Hg' Hb' Hrr Hgg Hbb.
  destruct (gray_value_floor r g b Hr Hg Hb) as [-> _].
  destruct (gray_value_floor r' g' b' Hr' Hg' Hb') as [-> _].
  apply Z.div_le_mono; lia.
Qed.

Lemma gray_value_monotone_witness :
  VeritasGrayscale.gray_value (10, 20, 30) <= VeritasGrayscale.gray_value (10, 25, 30).
Proof.
  apply (gray_value_monotone 10 20 30 10 25 30); unfold is_u8; lia.
Defined.

Section Region.

Lemma slice_fmap {A B} (f : A -> B) (l : list A) (a b : Z) :
  VeritasCrop.slice (f <$> l) a b = f <$> VeritasCrop.slice l a b.
Proof.
  unfold VeritasCrop.slice. rewrite length_fmap.
  by rewrite fmap_take, fmap_drop.
Qed.

Lemma region_fmap {A B} (f : A -> B) (m : list (list A)) (rh rw : Z) :
  VeritasGrayscaleMain.region (map (map f) m) rh rw
  = map (map f) (VeritasGrayscaleMain.region m rh rw).
Proof.
  unfold VeritasGrayscaleMain.region. rewrite !map_fmap.
  rewrite slice_fmap. rewrite <- !list_fmap_compose.
  apply list_fmap_ext. intros i row _. cbv [compose].
  rewrite !map_fmap. apply slice_fmap.
Qed.

End Region.

(** X17: the two arrays that the grayscale converter serialises agree, with
    or without a region: the gray array is the grayscale of the RGB array
    next to it. *)
Theorem grayscale_arrays_consistent (image_np : list (list (Z * Z * Z)))
    (process_region : bool) (region_height region_width : Z) :
  let out := VeritasGrayscaleMain.arrays image_np process_region
               region_height region_width in
  out.2 = VeritasGrayscale.rgb_to_grayscale (VeritasGrayscale.Rgb3D out.1).
Proof.
  cbv zeta. unfold VeritasGrayscaleMain.arrays.
  destruct process_region; cbn [fst snd VeritasGrayscale.rgb_to_grayscale];
    [| reflexivity].
  apply region_fmap.
Qed.

(** ** Brightness and contrast at particular factors *)

Section Factors.

Import HexCodec.

(** A property of every 8-bit value that a check of the 256 values settles. *)
Lemma forall_u8 (P : N -> bool) :
  forallb P (map N.of_nat (seq 0 256)) = true ->
  forall v : N, (v < 256)%N -> P v = true.
Proof.
  intros Hall v Hv. rewrite forallb_forall in Hall. apply Hall.
  apply in_map_iff. exists (N.to_nat v). split; [lia |].
  apply in_seq. lia.
Qed.

Lemma brightness_one_value (v : N) :
  (v < 256)%N -> VimzBrightness.adjust_value (F64.of_int 1) v = v.
Proof.
  intros Hv. apply N.eqb_eq.
  apply (forall_u8 (fun v => VimzBrightness.adjust_value (F64.of_int 1) v =? v)%N);
    [| exact Hv].
  vm_compute. reflexivity.
Qed.

Lemma contrast_one_value (v : N) :
  (v < 256)%N -> VimzContrast.adjust_value (F64.of_int 1) v = v.
Proof.
  intros Hv. apply N.eqb_eq.
  apply (forall_u8 (fun v => VimzContrast.adjust_value (F64.of_int 1) v =? v)%N);
    [| exact Hv].
  vm_compute. reflexivity.
Qed.

Lemma contrast_zero_value (v : N) :
  (v < 256)%N -> VimzContrast.adjust_value (F64.of_int 0) v = 128%N.
Proof.
  intros Hv. apply N.eqb_eq.
  apply (forall_u8 (fun v => VimzContrast.adjust_value (F64.of_int 0) v =? 128)%N);
    [| exact Hv].
  vm_compute. reflexivity.
Qed.

End Factors.

(** X18: the brightness factor 1.0 leaves every 8-bit image unchanged. *)
Theorem brightness_one_identity (image_array : list (list HexCodec.pixel)) :
  Forall (Forall HexCodec.pixel_u8) image_array ->
  VimzBrightness.adjust_brightness image_array (F64.of_int 1) = image_array.
Proof.
  intros Himage. unfold VimzBrightness.adjust_brightness,
    VimzBrightness.map_channels.
  rewrite map_fmap. rewrite <- (list_fmap_id image_array) at 2.
  apply Forall_fmap_ext_1. eapply Forall_impl; [exact Himage |].
  intros row Hrow. rewrite map_fmap. rewrite <- (list_fmap_id row) at 2.
  apply Forall_fmap_ext_1. eapply Forall_impl; [exact Hrow |].
  intros [v | c0 c1 c2]; cbn [HexCodec.pixel_u8 id].
  - intros Hv. by rewrite brightness_one_value.
  - intros (H0 & H1 & H2). by rewrite !brightness_one_value.
Qed.

Lemma brightness_one_identity_witness :
  VimzBrightness.adjust_brightness
    [[HexCodec.Scalar 7; HexCodec.Rgb 1 2 255]] (F64.of_int 1)
  = [[HexCodec.Scalar 7; HexCodec.Rgb 1 2 255]].
Proof.
  apply (brightness_one_identity [[HexCodec.Scalar 7; HexCodec.Rgb 1 2 255]]).
  repeat (constructor; try reflexivity).
Defined.

(** X19: a black channel stays black under every finite brightness
    factor. *)
Theorem brightness_keeps_black (brightness_factor : spec_float) :
  F64.is_finite brightness_factor = true ->
  VimzBrightness.adjust_value brightness_factor 0 = 0%N.
Proof.
  intros Hfin. unfold VimzBrightness.adjust_value.
  change (F64.of_int (Z.of_N 0)) with (S754_zero false).
  destruct brightness_factor as [s | s | | s m e]; try discriminate;
    destruct s; vm_compute; reflexivity.
Qed.

Lemma brightness_keeps_black_witness :
  VimzBrightness.adjust_value (F64.of_int 3) 0 = 0%N.
Proof. apply (brightness_keeps_black (F64.of_int 3)). reflexivity. Defined.

(** X20: the brightness factor 0.0 turns every 8-bit channel black. *)
Theorem brightness_zero_black (v : N) :
  (v < 256)%N -> VimzBrightness.adjust_value (F64.of_int 0) v = 0%N.
Proof.
  intros _. unfold VimzBrightness.adjust_value.
  change (F64.of_int 0) with (S754_zero false).
  destruct (F64.of_int (Z.of_N v)) as [s | s | | s m e]; try destruct s;
    vm_compute; reflexivity.
Qed.

Lemma brightness_zero_black_witness :
  VimzBrightness.adjust_value (F64.of_int 0) 200 = 0%N.
Proof. apply (brightness_zero_black 200). reflexivity. Defined.

(** X21: the contrast kernel pivots on 128: the value 128 is kept by every
    finite contrast factor. *)
Theorem contrast_keeps_pivot (contrast_factor : spec_float) :
  F64.is_finite contrast_factor = true ->
  VimzContrast.adjust_value contrast_factor 128 = 128%N.
Proof.
  intros Hfin. unfold VimzContrast.adjust_value.
  set (mean := F64.div (F64.of_int VimzContrast.mean1000) (F64.of_int 1000)).
  assert (Hsub : F64.sub (F64.of_int (Z.of_N 128)) mean = S754_zero false)
    by (vm_compute; reflexivity).
  rewrite Hsub.
  destruct contrast_factor as [s | s | | s m e]; try discriminate;
    destruct s; vm_compute; reflexivity.
Qed.

Lemma contrast_keeps_pivot_witness :
  VimzContrast.adjust_value (F64.of_int 2) 128 = 128%N.
Proof. apply (contrast_keeps_pivot (F64.of_int 2)). reflexivity. Defined.

(** X22: the contrast factor 1.0 leaves every 8-bit RGB image unchanged. *)
Theorem contrast_one_identity (image_array : list (list HexCodec.pixel)) :
  Forall (Forall (HexCodec.fits HexCodec.Depth3)) image_array ->
  VimzContrast.adjust_contrast image_array (F64.of_int 1) = Some image_array.
Proof.
  intros Himage. unfold VimzContrast.adjust_contrast.
  apply mapM_Some_2. apply Forall2_same_length_lookup_2; [done |].
  intros i row row' Hrow Hrow'. assert (row' = row) as -> by congruence.
  apply mapM_Some_2. apply Forall2_same_length_lookup_2; [done |].
  intros j px px' Hpx Hpx'. assert (px' = px) as -> by congruence.
  pose proof (Forall_lookup_1 _ _ _ _ Himage Hrow) as Hr.
  pose proof (Forall_lookup_1 _ _ _ _ Hr Hpx) as Hp.
  destruct px as [v | c0 c1 c2]; cbn [HexCodec.fits] in Hp; [done |].
  destruct Hp as (H0 & H1 & H2). cbn [VimzContrast.adjust_pixel].
  by rewrite !contrast_one_value.
Qed.

Lemma contrast_one_identity_witness :
  VimzContrast.adjust_contrast [[HexCodec.Rgb 1 2 255; HexCodec.Rgb 0 128 7]]
    (F64.of_int 1)
  = Some [[HexCodec.Rgb 1 2 255; HexCodec.Rgb 0 128 7]].
Proof.
  apply (contrast_one_identity [[HexCodec.Rgb 1 2 255; HexCodec.Rgb 0 128 7]]).
  repeat (constructor; try reflexivity).
Defined.

(** X23: the contrast factor 0.0 turns every channel of an 8-bit RGB image
    into 128. *)
Theorem contrast_zero_flat (image_array : list (list HexCodec.pixel)) :
  Forall (Forall (HexCodec.fits HexCodec.Depth3)) image_array ->
  VimzContrast.adjust_contrast image_array (F64.of_int 0)
  = Some (map (map (fun _ => HexCodec.Rgb 128 128 128)) image_array).
Proof.
  intros Himage. unfold VimzContrast.adjust_contrast.
  apply mapM_Some_2. rewrite map_fmap. apply Forall2_fmap_r.
  apply Forall_Forall2_diag. eapply Forall_impl; [exact Himage |].
  intros row Hrow. cbv [compose]. apply mapM_Some_2.
  rewrite map_fmap. apply Forall2_fmap_r. apply Forall_Forall2_diag.
  eapply Forall_impl; [exact Hrow |].
  intros [v | c0 c1 c2]; cbn [HexCodec.fits]; [done |].
  intros (H0 & H1 & H2). cbv [compose]. cbn [VimzContrast.adjust_pixel].
  by rewrite !contrast_zero_value.
Qed.

Lemma contrast_zero_flat_witness :
  VimzContrast.adjust_contrast [[HexCodec.Rgb 1 2 255; HexCodec.Rgb 0 128 7]]
    (F64.of_int 0)
  = Some (map (map (fun _ => HexCodec.Rgb 128 128 128))
              [[HexCodec.Rgb 1 2 255; HexCodec.Rgb 0 128 7]]).
Proof.
  apply (contrast_zero_flat [[HexCodec.Rgb 1 2 255; HexCodec.Rgb 0 128 7]]).
  repeat (constructor; try reflexivity).
Defined.

(** ** The envelope of the blur converter and the grayscale region *)

Section BlurEnvelope.

Import VimzBlur VimzBlurMain.

Lemma channel_shape (k : nat) (image : list (list (list Z))) (h w : nat) :
  has_shape image h w -> has_shape (channel k image) h w.
Proof.
  intros [Hlen Hrows]. unfold channel. split; [by rewrite length_map |].
  rewrite map_fmap. apply Forall_fmap. eapply Forall_impl; [exact Hrows |].
  intros row Hrow. cbv [compose]. by rewrite length_map.
Qed.

Lemma dstack_shape (r g b : list (list Z)) (h w : nat) :
  has_shape r h w -> has_shape g h w -> has_shape b h w ->
  has_shape (dstack r g b) h w.
Proof.
  intros [Hrl Hr] [Hgl Hg] [Hbl Hb]. unfold dstack. split.
  - rewrite !length_zip_with. lia.
  - apply Forall_lookup. intros i row Hrow.
    apply lookup_zip_with_Some in Hrow as (rr & gb & -> & Hrr & Hgb).
    apply lookup_zip_with_Some in Hgb as (gg & bb & -> & Hgg & Hbb).
    pose proof (Forall_lookup_1 _ _ _ _ Hr Hrr) as Hrw.
    pose proof (Forall_lookup_1 _ _ _ _ Hg Hgg) as Hgw.
    pose proof (Forall_lookup_1 _ _ _ _ Hb Hbb) as Hbw.
    cbv beta in Hrw, Hgw, Hbw |- *.
    rewrite !length_zip_with. lia.
Qed.

Lemma blur_shape (image_array : list (list (list Z))) (h w : nat) :
  has_shape image_array h w -> has_shape (blur image_array) h w.
Proof.
  intros Hshape. unfold blur, blur_channel.
  apply dstack_shape; apply conv2d_has_shape, channel_shape, Hshape.
Qed.

Lemma to_pixels_shape (image : list (list (list Z))) (h w : nat) :
  has_shape image h w -> has_shape (to_pixels image) h w.
Proof.
  intros [Hlen Hrows]. unfold to_pixels. split; [by rewrite length_map |].
  rewrite map_fmap. apply Forall_fmap. eapply Forall_impl; [exact Hrows |].
  intros row Hrow. cbv [compose]. by rewrite length_map.
Qed.

Lemma lookup_total_u8 (px : list Z) (k : nat) :
  Forall is_u8 px -> is_u8 (px !!! k).
Proof.
  intros Hpx. rewrite list_lookup_total_alt.
  destruct (px !! k) as [v |] eqn:E; cbn.
  - exact (Forall_lookup_1 _ _ _ _ Hpx E).
  - unfold is_u8. cbv. split; discriminate.
Qed.

Lemma to_pixel_fits (px : list Z) :
  Forall is_u8 px -> HexCodec.fits HexCodec.Depth3 (to_pixel px).
Proof.
  intros Hpx. unfold to_pixel. cbn [HexCodec.fits].
  pose proof (lookup_total_u8 px 0 Hpx) as H0.
  pose proof (lookup_total_u8 px 1 Hpx) as H1.
  pose proof (lookup_total_u8 px 2 Hpx) as H2.
  unfold is_u8 in *. lia.
Qed.

Lemma to_pixels_fits (image : list (list (list Z))) :
  Forall (Forall (Forall is_u8)) image ->
  Forall (Forall (HexCodec.fits HexCodec.Depth3)) (to_pixels image).
Proof.
  intros Himage. unfold to_pixels. rewrite map_fmap. apply Forall_fmap.
  eapply Forall_impl; [exact Himage |]. intros row Hrow. cbv [compose].
  rewrite map_fmap. apply Forall_fmap.
  eapply Forall_impl; [exact Hrow |]. intros px Hpx. by apply to_pixel_fits.
Qed.

End BlurEnvelope.

(** X24: for an RGB image of [h] rows and [w] columns the blur converter
    succeeds; the original member has [h + 2] rows and the transformed
    member [h] rows, each of [w / 10] words. *)
Theorem blur_main_geometry (image_np : list (list (list Z))) (h w : nat) :
  has_shape image_np h w -> (0 < h)%nat ->
  VimzBlurMain.three_channels image_np = true ->
  exists env, VimzBlurMain.main image_np = Some env
    /\ has_shape (VimzBlurMain.original env) (h + 2) (w / 10)
    /\ has_shape (VimzBlurMain.transformed env) h (w / 10).
Proof.
  intros Hshape Hh Hrgb. unfold VimzBlurMain.main, VimzBlurMain.blur_and_compress.
  rewrite Hrgb.
  destruct (lookup_lt_is_Some_2 image_np 0) as [row0 Hrow0];
    [destruct Hshape; lia |].
  rewrite Hrow0. cbn [mbind option_bind].
  assert (Hw : length row0 = w).
  { destruct Hshape as [_ Hrows]. exact (Forall_lookup_1 _ _ _ _ Hrows Hrow0). }
  rewrite Hw. eexists. split; [reflexivity |].
  cbn [VimzBlurMain.original VimzBlurMain.transformed].
  pose proof (compress_has_shape _ h w (to_pixels_shape _ h w Hshape)) as [Hl Hr].
  split.
  - split.
    + cbn [length app]. rewrite length_app, Hl. cbn [length]. lia.
    + constructor; [by rewrite length_replicate |].
      apply Forall_app. split; [exact Hr |].
      constructor; [by rewrite length_replicate | constructor].
  - apply compress_has_shape, to_pixels_shape, blur_shape, Hshape.
Qed.

Lemma blur_main_geometry_witness :
  exists env,
    VimzBlurMain.main [replicate 10 [1; 2; 3]; replicate 10 [255; 0; 9]]
    = Some env
    /\ has_shape (VimzBlurMain.original env) (2 + 2) (10 / 10)
    /\ has_shape (VimzBlurMain.transformed env) 2 (10 / 10).
Proof.
  apply (blur_main_geometry
           [replicate 10 [1; 2; 3]; replicate 10 [255; 0; 9]] 2 10).
  - split; [reflexivity | repeat constructor].
  - lia.
  - reflexivity.
Defined.

(** X25: every word of the transformed member of the blur envelope is ["0x"]
    and sixty digits, whatever the values of the image, while the padding
    rows of the original member hold four-character words. *)
Theorem blur_main_word_width (image_np : list (list (list Z))) :
  image_np <> [] -> VimzBlurMain.three_channels image_np = true ->
  exists env, VimzBlurMain.main image_np = Some env
    /\ Forall (Forall (fun word => String.length word = 62%nat))
              (VimzBlurMain.transformed env)
    /\ Forall (fun word => String.length word = 4%nat)
              (VimzBlurMain.original env !!! 0%nat).
Proof.
  intros Hne Hrgb.
  unfold VimzBlurMain.main, VimzBlurMain.blur_and_compress. rewrite Hrgb.
  destruct image_np as [| row0 rest]; [done |].
  cbn [lookup list_lookup mbind option_bind].
  eexists. split; [reflexivity |].
  cbn [VimzBlurMain.original VimzBlurMain.transformed]. split.
  - apply (compress_words_62 HexCodec.Depth3).
    apply to_pixels_fits, blur_b_range.
  - cbn. apply Forall_replicate. reflexivity.
Qed.

Lemma blur_main_word_width_witness :
  exists env,
    VimzBlurMain.main [replicate 10 [1; 2; 3]; replicate 10 [255; 0; 9]]
    = Some env
    /\ Forall (Forall (fun word => String.length word = 62%nat))
              (VimzBlurMain.transformed env)
    /\ Forall (fun word => String.length word = 4%nat)
              (VimzBlurMain.original env !!! 0%nat).
Proof.
  apply (blur_main_word_width
           [replicate 10 [1; 2; 3]; replicate 10 [255; 0; 9]]).
  - discriminate.
  - reflexivity.
Defined.

Section RegionCells.

Lemma slice_prefix {A} (l : list A) (n : Z) :
  0 <= n <= Z.of_nat (length l) -> VeritasCrop.slice l 0 n = take (Z.to_nat n) l.
Proof.
  intros Hn. pose proof (slice_inside l 0 n) as H.
  rewrite Z.add_0_l in H. change (Z.to_nat 0) with 0%nat in H.
  rewrite drop_0 in H. apply H; lia.
Qed.

Lemma region_take {A} (m : list (list A)) (h w : nat) (rh rw : Z) :
  has_shape m h w -> 0 <= rh <= Z.of_nat h -> 0 <= rw <= Z.of_nat w ->
  VeritasGrayscaleMain.region m rh rw
  = map (take (Z.to_nat rw)) (take (Z.to_nat rh) m).
Proof.
  intros [Hlen Hrows] Hrh Hrw. unfold VeritasGrayscaleMain.region.
  rewrite (slice_prefix m rh) by lia.
  rewrite !map_fmap. apply Forall_fmap_ext_1. apply Forall_take.
  eapply Forall_impl; [exact Hrows |]. intros row Hrow. cbv beta in Hrow.
  by rewrite (slice_prefix row rw) by lia.
Qed.

End RegionCells.

(** X26: with a region, the grayscale converter keeps the top-left corner of
    the image, cut to the image where the region is larger: the gray array
    holds the gray value of the cell at the same position. *)
Theorem grayscale_region_cells (image_np : list (list (Z * Z * Z))) (h w : nat)
    (region_height region_width : Z) :
  has_shape image_np h w -> (0 < h)%nat ->
  0 <= region_height -> 0 <= region_width ->
  let rh := Z.to_nat (Z.min region_height (Z.of_nat h)) in
  let rw := Z.to_nat (Z.min region_width (Z.of_nat w)) in
  let out := VeritasGrayscaleMain.arrays image_np true region_height
               region_width in
  has_shape out.1 rh rw /\ has_shape out.2 rh rw
  /\ forall r c : nat, (r < rh)%nat -> (c < rw)%nat ->
       (out.1 !!! r) !!! c = (image_np !!! r) !!! c
       /\ cell out.2 r c
          = VeritasGrayscale.gray_value ((image_np !!! r) !!! c).
Proof.
  intros Hshape Hh Hrh Hrw rh rw out. subst out.
  unfold VeritasGrayscaleMain.arrays. cbn [fst snd].
  pose proof Hshape as [Hlen Hrows].
  rewrite Hlen, (has_shape_row image_np h w 0 Hshape Hh).
  cbn [VeritasGrayscale.rgb_to_grayscale]. rewrite region_fmap.
  rewrite (region_take image_np h w _ _ Hshape) by lia. fold rh rw.
  assert (Hrh' : (rh <= h)%nat) by (subst rh; lia).
  assert (Hrw' : (rw <= w)%nat) by (subst rw; lia).
  clearbody rh rw.
  assert (Hs : has_shape (map (take rw) (take rh image_np)) rh rw).
  { split.
    - rewrite length_map, length_take. lia.
    - rewrite map_fmap. apply Forall_fmap, Forall_take.
      eapply Forall_impl; [exact Hrows |]. intros row Hrow. cbv [compose].
      cbv beta in Hrow. rewrite length_take. lia. }
  assert (Hcell : forall r c : nat, (r < rh)%nat -> (c < rw)%nat ->
            (map (take rw) (take rh image_np) !!! r) !!! c
            = (image_np !!! r) !!! c).
  { intros r c Hr Hc. rewrite map_fmap.
    rewrite !list_lookup_total_alt, list_lookup_fmap.
    rewrite lookup_take_lt by done.
    destruct (image_np !! r) as [row |]; simpl; [| reflexivity].
    by rewrite lookup_take_lt. }
  split; [exact Hs |]. split.
  - destruct Hs as [Hl Hr]. split; [by rewrite length_map |].
    rewrite map_fmap. apply Forall_fmap. eapply Forall_impl; [exact Hr |].
    intros row Hrow. cbv [compose]. by rewrite length_map.
  - intros r c Hr Hc. split; [by apply Hcell |].
    rewrite <- (Hcell r c Hr Hc). unfold cell.
    destruct Hs as [Hl Hrw2].
    destruct (lookup_lt_is_Some_2 (map (take rw) (take rh image_np)) r)
      as [row Hrow]; [lia |].
    pose proof (Forall_lookup_1 _ _ _ _ Hrw2 Hrow) as Hrowlen. cbv beta in Hrowlen.
    destruct (lookup_lt_is_Some_2 row c) as [px Hpx]; [lia |].
    assert (E1 : map (map VeritasGrayscale.gray_value)
                   (map (take rw) (take rh image_np)) !! r
                 = Some (map VeritasGrayscale.gray_value row)).
    { by rewrite map_fmap, list_lookup_fmap, Hrow. }
    assert (E2 : map VeritasGrayscale.gray_value row !! c
                 = Some (VeritasGrayscale.gray_value px)).
    { by rewrite map_fmap, list_lookup_fmap, Hpx. }
    rewrite (list_lookup_total_correct _ _ _ E1).
    rewrite (list_lookup_total_correct _ _ _ E2).
    rewrite (list_lookup_total_correct _ _ _ Hrow).
    by rewrite (list_lookup_total_correct _ _ _ Hpx).
Qed.

Lemma grayscale_region_cells_witness :
  has_shape
    (VeritasGrayscaleMain.arrays
       [[(255, 0, 0); (0, 255, 0)]; [(0, 0, 255); (9, 9, 9)]] true 1 5).2 1 2
  /\ cell (VeritasGrayscaleMain.arrays
             [[(255, 0, 0); (0, 255, 0)]; [(0, 0, 255); (9, 9, 9)]] true 1 5).2
          0 1
     = VeritasGrayscale.gray_value (0, 255, 0).
Proof.
  destruct (grayscale_region_cells
              [[(255, 0, 0); (0, 255, 0)]; [(0, 0, 255); (9, 9, 9)]] 2 2 1 5)
    as (_ & Hs & Hc); try lia.
  - split; [reflexivity | repeat constructor].
  - split; [exact Hs |]. apply (Hc 0%nat 1%nat); cbn; lia.
Defined.

(** ** The crop converters at the edges *)

(** X27: when the crop converter accepts the image, the info word gives both
    offsets back as long as the row offset is below 4096: the column offset
    is the word over [2^24], the row offset is the next twelve bits, and the
    low twelve bits are 0. *)
Theorem crop_info_fields (image : list (list HexCodec.pixel)) (a : VimzCrop.args) :
  VimzCrop.too_small image a = false ->
  0 <= VimzCrop.crop_y a < 4096 ->
  exists env, VimzCrop.main image a = Some env
    /\ VimzCrop.info env / 2 ^ 24 = VimzCrop.crop_x a
    /\ (VimzCrop.info env mod 2 ^ 24) / 2 ^ 12 = VimzCrop.crop_y a
    /\ VimzCrop.info env mod 2 ^ 12 = 0.
Proof.
  intros Hok Hy. unfold VimzCrop.main. rewrite Hok.
  eexists. split; [reflexivity |]. cbn [VimzCrop.info].
  set (x := VimzCrop.crop_x a) in *. set (y := VimzCrop.crop_y a) in *.
  change (2 ^ 24) with (2 ^ 12 * 2 ^ 12).
  change (2 ^ 12) with 4096.
  assert (E : x * (4096 * 4096) + y * 4096 = (x * 4096 + y) * 4096) by ring.
  repeat split.
  - rewrite E, <- Z.div_div by lia. rewrite Z.div_mul by lia.
    rewrite Z.div_add_l by lia. rewrite Z.div_small by lia. lia.
  - rewrite (Z.add_comm (x * _)), Z.mod_add by lia.
    rewrite (Z.mod_small (y * 4096)) by lia. apply Z.div_mul. lia.
  - rewrite E. apply Z.mod_mul. lia.
Qed.

Lemma crop_info_fields_witness :
  exists env,
    VimzCrop.main VimzCrop.sd_canvas (VimzCrop.Args VimzCrop.SD 10 3) = Some env
    /\ VimzCrop.info env / 2 ^ 24 = 10
    /\ (VimzCrop.info env mod 2 ^ 24) / 2 ^ 12 = 3
    /\ VimzCrop.info env mod 2 ^ 12 = 0.
Proof.
  apply (crop_info_fields VimzCrop.sd_canvas (VimzCrop.Args VimzCrop.SD 10 3)).
  - vm_compute. reflexivity.
  - cbn. lia.
Defined.

(** X28: a negative column offset is not rejected: when the requested window
    reaches back to column 0 and is no wider than the image, every row of
    the crop is empty. *)
Theorem apply_crop_negative_offset (image_array : list (list Z)) (h w : nat)
    (crop_x crop_y : Z) (crop_width crop_height : option Z)
    (res : VeritasCrop.resolution) :
  has_shape image_array h w -> (0 < h)%nat ->
  - Z.of_nat w <= crop_x < 0 ->
  0 <= crop_x + default (VeritasCrop.sizes res).1 crop_width ->
  default (VeritasCrop.sizes res).1 crop_width <= Z.of_nat w ->
  Forall (fun row => row = [])
         (VeritasCrop.apply_crop image_array crop_x crop_y crop_width
            crop_height res).
Proof.
  intros Hshape Hh Hx Hreach Hfit. unfold VeritasCrop.apply_crop.
  pose proof Hshape as [Hlen Hrows].
  rewrite Hlen, (has_shape_row image_array h w 0 Hshape Hh).
  destruct (VeritasCrop.sizes res) as [dw dh]. cbn [fst snd] in *. cbv zeta.
  set (cw := default dw crop_width) in *.
  rewrite map_fmap. apply Forall_fmap. apply slice_Forall.
  eapply Forall_impl; [exact Hrows |]. intros row Hrow. cbv [compose].
  cbv beta in Hrow. unfold VeritasCrop.slice, VeritasCrop.slice_bound.
  rewrite Hrow. rewrite (Z.min_l cw) by lia.
  destruct (Z.ltb_spec crop_x 0); [| lia].
  destruct (Z.ltb_spec (crop_x + cw) 0); [lia |].
  replace (Z.to_nat (Z.min (crop_x + cw) (Z.of_nat w)
                     - Z.max (crop_x + Z.of_nat w) 0)) with 0%nat by lia.
  reflexivity.
Qed.

Lemma apply_crop_negative_offset_witness :
  Forall (fun row => row = [])
         (VeritasCrop.apply_crop VeritasBlur.sample (-1) 0 (Some 3) None
            VeritasCrop.HD).
Proof.
  apply (apply_crop_negative_offset VeritasBlur.sample 4 4 (-1) 0 (Some 3) None
           VeritasCrop.HD); try (cbn; lia).
  split; [reflexivity | repeat constructor].
Defined.
